(** * doctool: the configuration documentation tree

    A shallow embedding of the three revisions of the documentation tool
    found in the repository:

    - [Doctool]  : src/cmd/doctool/main.go (with src/cmd/doctool/blocks.go)
    - [Part000]  : src/unnamed/part_000 (fold to a [ConfigBlock] document)
    - [Part001]  : src/unnamed/part_001 (the [ConfigTree] revision)

    The Go packages [reflect], [flag] and [strings] are represented by the
    small modules below, restricted to what the tool calls. *)

From Stdlib Require Import Ascii.
From stdpp Require Import gmap strings list.

Open Scope stdpp_scope.

(** ** Results of fallible code *)

(** A Go call either returns or panics. *)
Inductive result (A : Type) : Type :=
| Ok (a : A)
| Panic (msg : string).
Arguments Ok {A} a.
Arguments Panic {A} msg.

Definition is_Ok {A} (r : result A) : Prop := ∃ a, r = Ok a.

(** The runtime error raised by a method call on a nil interface value. *)
Definition nil_dereference : string :=
  "invalid memory address or nil pointer dereference".

(** ** Package reflect *)

Module reflect.

(** [reflect.Kind], in declaration order. [Ptr] is [reflect.Pointer]. *)
Inductive Kind : Type :=
| Invalid | Bool
| Int | Int8 | Int16 | Int32 | Int64
| Uint | Uint8 | Uint16 | Uint32 | Uint64 | Uintptr
| Float32 | Float64 | Complex64 | Complex128
| Array | Chan | Func | Interface | Map | Ptr | Slice
| String | Struct | UnsafePointer.

#[global] Instance Kind_eq_dec : EqDecision Kind.
Proof. solve_decision. Defined.

(** [Kind.String()]: the entries of reflect's kindNames table. *)
Definition Kind_String (k : Kind) : string :=
  match k with
  | Invalid => "invalid" | Bool => "bool"
  | Int => "int" | Int8 => "int8" | Int16 => "int16"
  | Int32 => "int32" | Int64 => "int64"
  | Uint => "uint" | Uint8 => "uint8" | Uint16 => "uint16"
  | Uint32 => "uint32" | Uint64 => "uint64" | Uintptr => "uintptr"
  | Float32 => "float32" | Float64 => "float64"
  | Complex64 => "complex64" | Complex128 => "complex128"
  | Array => "array" | Chan => "chan" | Func => "func"
  | Interface => "interface" | Map => "map" | Ptr => "ptr"
  | Slice => "slice" | String => "string" | Struct => "struct"
  | UnsafePointer => "unsafe.Pointer"
  end.

(** A type descriptor, as far as the tool inspects it: its kind, the
    results of [PkgPath()] and [Name()], and, for the two kinds whose
    element the classifier follows, the descriptor [Elem()] returns.
    [Plain] stands for a descriptor of any other kind.  Descriptors are
    finite terms: the chain of element types of a slice or pointer type
    ends (a self-referential declaration such as [type T []T] has no
    representation here). *)
Inductive rtype : Type :=
| SliceOf (pkgPath name : string) (elem : rtype)
| PtrTo (pkgPath name : string) (elem : rtype)
| Plain (kind : Kind) (pkgPath name : string).

#[global] Instance rtype_eq_dec : EqDecision rtype.
Proof. solve_decision. Defined.

Definition Kind_of (t : rtype) : Kind :=
  match t with
  | SliceOf _ _ _ => Slice
  | PtrTo _ _ _ => Ptr
  | Plain k _ _ => k
  end.

Definition PkgPath (t : rtype) : string :=
  match t with
  | SliceOf p _ _ | PtrTo p _ _ | Plain _ p _ => p
  end.

Definition Name (t : rtype) : string :=
  match t with
  | SliceOf _ n _ | PtrTo _ n _ | Plain _ _ n => n
  end.

(** A value of the interface type [reflect.Type]: nil, or a descriptor.
    Go compares two such values by descriptor identity; descriptors are
    canonical, so this is equality of the described types. *)
Definition Type_ : Type := option rtype.

(** The signed and unsigned integer kinds of every width. *)
Definition is_integer_kind (k : Kind) : bool :=
  match k with
  | Int | Int8 | Int16 | Int32 | Int64
  | Uint | Uint8 | Uint16 | Uint32 | Uint64 | Uintptr => true
  | _ => false
  end.

Definition is_float_kind (k : Kind) : bool :=
  match k with
  | Float32 | Float64 => true
  | _ => false
  end.

(** The descriptor of [*reflect.rtype], the dynamic type of every non-nil
    [reflect.Type] value. *)
Definition rtype_pointer : rtype :=
  PtrTo "" "" (Plain Struct "reflect" "rtype").

(** [reflect.TypeOf(x)] for an [x] that is itself a [reflect.Type]: the
    descriptor of the dynamic type of [x], nil for a nil interface. *)
Definition TypeOf_Type (x : Type_) : Type_ :=
  match x with
  | None => None
  | Some _ => Some rtype_pointer
  end.

(** A value of the empty interface: nil, or a dynamic type with its data
    word.  [reflect.TypeOf] returns the dynamic type, nil for nil. *)
Record eface : Type := mk_eface { dynamic_type : rtype; data : N }.

Definition TypeOf (x : option eface) : Type_ := dynamic_type <$> x.

(** A [reflect.StructField], as far as the tool reads it: the result of
    [field.Tag.Get("yaml")] and the type of the field. *)
Record StructField : Type := mkStructField {
  yaml : string;
  field_Type : rtype
}.

(** A [reflect.Value] of a field or of the configuration: what
    [Addr().Pointer()] yields (a panic for a value that is not
    addressable) and, for a struct, the entries of
    [reflect.VisibleFields(v.Type())], each with what
    [v.FieldByIndex(field.Index)] yields.  [FieldByIndex] panics on a field
    promoted through an embedded pointer that is nil: [no_field] stands for
    that outcome and carries the message of the panic. *)
#[warnings="-register-all"]
Inductive Value : Type :=
| mkValue (addr : result N) (visible : list (StructField * Value))
| no_field (msg : string).

Definition Addr_Pointer (v : Value) : result N :=
  match v with
  | mkValue addr _ => addr
  | no_field msg => Panic msg
  end.

Definition VisibleFields (v : Value) : list (StructField * Value) :=
  match v with
  | mkValue _ visible => visible
  | no_field _ => []
  end.

End reflect.

(** The kinds the classifier lists in its first case. *)
Definition listed_int_kind (k : reflect.Kind) : bool :=
  match k with
  | reflect.Int | reflect.Int16 | reflect.Int32 | reflect.Int64
  | reflect.Uint | reflect.Uint16 | reflect.Uint32 | reflect.Uint64 => true
  | _ => false
  end.

(** ** Effects *)

#[global] Instance result_ret : MRet result := λ A a, Ok a.
#[global] Instance result_bind : MBind result := λ A B f r,
  match r with
  | Ok a => f a
  | Panic msg => Panic msg
  end.

#[global] Instance result_fmap : FMap result := λ A B f r,
  match r with
  | Ok a => Ok (f a)
  | Panic msg => Panic msg
  end.

(** A computation over a state [S] that may panic: the per-node functions
    handed to the walkers are Go closures, which may write to standard
    output, record their calls, or panic. *)
Definition M (S A : Type) : Type := S → result (A * S).

#[global] Instance M_ret {S} : MRet (M S) := λ A a s, Ok (a, s).
#[global] Instance M_bind {S} : MBind (M S) := λ A B f c s,
  match c s with
  | Ok (a, s') => f a s'
  | Panic msg => Panic msg
  end.

(** A closure without effects. *)
Definition pure {S A B} (f : A → B) : A → M S B := λ a s, Ok (f a, s).

(** A loop that runs [f] on the elements of a slice in order and collects
    the results at the same indices. *)
Definition mapM {S A B} (f : A → M S B) : list A → M S (list B) :=
  fix go (l : list A) : M S (list B) :=
    match l with
    | [] => mret []
    | a :: l' => b ← f a; bs ← go l'; mret (b :: bs)
    end.

(** ** Machine integers and text *)

(** [uintptr] values are only compared. *)
Abbreviation uintptr := N.

(** Go's [int] on a 64-bit target. *)
Definition int_wrap (z : Z) : Z := ((z + 2 ^ 63) `mod` 2 ^ 64 - 2 ^ 63)%Z.
Definition int_add (a b : Z) : Z := int_wrap (a + b).

(** The line feed, written "\n" in the source. *)
Definition nl : string := String (Ascii.ascii_of_nat 10) EmptyString.

(** [fmt.Sprintf("%v", b)] for a bool. *)
Definition fmt_bool (b : bool) : string := if b then "true" else "false".

(** [indent], the same text in the three revisions: the loop
    [for x := 0; x < i; x++] appends two spaces per round. *)
Fixpoint indent_loop (rounds : nat) (sb : string) : string :=
  match rounds with
  | O => sb
  | S rounds' => indent_loop rounds' (sb +:+ "  ")
  end.

Definition indent (i : Z) : string := indent_loop (Z.to_nat i) "".

(** The loop over the children in [PrintConfigTree], the same text in the
    three revisions:
    [sb.WriteString(indent(i+1) + PrintConfigTree(field, i+1) + "\n")]. *)
Definition print_fields {A} (print : A → Z → result string) (i : Z)
  : list A → string → result string :=
  fix fields (cs : list A) (sb : string) : result string :=
    match cs with
    | [] => mret sb
    | field :: cs' =>
        line ← print field (int_add i 1);
        fields cs' (sb +:+ (indent (int_add i 1) +:+ line +:+ nl))
    end.

(** ** Package strings *)

Module strings.

(** [strings.Split(s, sep)] for a separator of one character: the pieces
    of [s] between the separators; one piece, [s], when there is none. *)
Fixpoint Split (s : string) (sep : Ascii.ascii) : list string :=
  match s with
  | EmptyString => [""]
  | String c s' =>
      if Ascii.eqb c sep then "" :: Split s' sep
      else match Split s' sep with
           | piece :: pieces => String c piece :: pieces
           | [] => [String c ""]
           end
  end.

End strings.

(** [parseTag], the same text in the three revisions. *)
Definition parseTag (tag : string) : string * list string :=
  let parts := strings.Split tag ","%char in
  match parts with
  | [] => ("", [])
  | [name] => (name, [])
  | name :: modifiers => (name, modifiers)
  end.

(** ** Package flag *)

Module flag.

(** A [flag.Value] as the tool observes it: what [String()] renders now,
    and what [reflect.ValueOf(v).Pointer()] yields.  [Pointer] panics on a
    value whose kind is not pointer-like (such as the struct value behind
    a deprecated flag), hence the [result]. *)
Record Value : Type := mkValue {
  String_ : string;
  Pointer : result uintptr
}.

Record Flag : Type := mkFlag {
  Name : string;
  Usage : string;
  Value_ : Value;
  DefValue : string
}.

(** A flag set, as the sequence of flags [VisitAll] hands to its callback
    (sorted by name; names are unique within a set, so a [*Flag] pointer
    is identified by the record it points to). *)
Abbreviation FlagSet := (list Flag).

End flag.

#[global] Instance result_eq_dec `{EqDecision A} : EqDecision (result A).
Proof. solve_decision. Defined.
#[global] Instance flag_Value_eq_dec : EqDecision flag.Value.
Proof. solve_decision. Defined.
#[global] Instance flag_Flag_eq_dec : EqDecision flag.Flag.
Proof. solve_decision. Defined.

(** [parseFlags], the same text in the three revisions.  The callback
    returns early on a flag that renders as "deprecated"; otherwise it
    stores the flag under the pointer of its value, replacing an earlier
    flag stored under the same pointer. *)
Definition parseFlags_visit (m : gmap uintptr flag.Flag) (f : flag.Flag)
  : result (gmap uintptr flag.Flag) :=
  if decide (flag.String_ (flag.Value_ f) = "deprecated") then Ok m
  else p ← flag.Pointer (flag.Value_ f); Ok (<[p := f]> m).

Fixpoint VisitAll {A} (fs : flag.FlagSet) (fn : A → flag.Flag → result A)
  (acc : A) : result A :=
  match fs with
  | [] => Ok acc
  | f :: fs' => acc' ← fn acc f; VisitAll fs' fn acc'
  end.

Definition parseFlags (fs : flag.FlagSet) : result (gmap uintptr flag.Flag) :=
  VisitAll fs parseFlags_visit ∅.

(** ** The block registry (src/cmd/doctool/blocks.go) *)

Module blocks.

Record Block : Type := mkBlock {
  Name : string;
  Desc : string;
  Type_ : reflect.Type_
}.

(** [Blocks()]: the registry, in source order.  Each entry takes the type of
    a composite literal of a named struct type of the package imported
    under the given path. *)
Definition Blocks : list Block := [
  mkBlock "common_config"
    ("Common configuration shared between multiple modules." +:+ nl +:+ "If a more specific configuration is given in other sections, the related configuration within thie section will be ignored.")
    (Some (reflect.Plain reflect.Struct "github.com/grafana/loki/pkg/loki/common" "Config"));
  mkBlock "server_config"
    ("Configures the HTTP/gRPC server of the started module(s).")
    (Some (reflect.Plain reflect.Struct "github.com/weaveworks/common/server" "Config"));
  mkBlock "distributor_config"
    ("Configures the distributors and how they connect to each other via the ring.")
    (Some (reflect.Plain reflect.Struct "github.com/grafana/loki/pkg/distributor" "Config"));
  mkBlock "querier_config"
    ("Configures the queriers" +:+ nl +:+ "Only applicable when running target `all` or `querier`.")
    (Some (reflect.Plain reflect.Struct "github.com/grafana/loki/pkg/querier" "Config"));
  mkBlock "ingester_config"
    ("Configures the ingesters and how they register themselves to the distributor ring.")
    (Some (reflect.Plain reflect.Struct "github.com/grafana/loki/pkg/ingester" "Config"));
  mkBlock "ingester_client_config"
    ("Configures how the ingester clients on the distributors and queriers will connect to the ingesters" +:+ nl +:+ "Only applicable when running target `all`, `distributor`, or `querier`.")
    (Some (reflect.Plain reflect.Struct "github.com/grafana/loki/pkg/ingester/client" "Config"));
  mkBlock "storage_config"
    ("Configures where Loki stores data.")
    (Some (reflect.Plain reflect.Struct "github.com/grafana/loki/pkg/storage" "Config"));
  mkBlock "chunkstore_config"
    ("Configures how Loki stores data in the specific store.")
    (Some (reflect.Plain reflect.Struct "github.com/grafana/loki/pkg/storage/chunk" "Config"));
  mkBlock "schema_config"
    ("Configures the chunk index schema and where it is stored.")
    (Some (reflect.Plain reflect.Struct "github.com/grafana/loki/pkg/storage/config" "SchemaConfig"));
  mkBlock "limits_config"
    ("Configures per-tenant or global limits.")
    (Some (reflect.Plain reflect.Struct "github.com/grafana/loki/pkg/validation" "Limits"));
  mkBlock "table_manager_config"
    ("Configures how long the table manager retains data.")
    (Some (reflect.Plain reflect.Struct "github.com/grafana/loki/pkg/storage/stores/series/index" "TableManagerConfig"));
  mkBlock "frontend_worker_config"
    ("Configures the workers that are running with in the queriers and picking up and executing queries enqued by the query frontend.")
    (Some (reflect.Plain reflect.Struct "github.com/grafana/loki/pkg/querier/worker" "Config"));
  mkBlock "frontend_config"
    ("Configures the query frontends.")
    (Some (reflect.Plain reflect.Struct "github.com/grafana/loki/pkg/lokifrontend" "Config"));
  mkBlock "ruler_config"
    ("Configures the rulers.")
    (Some (reflect.Plain reflect.Struct "github.com/grafana/loki/pkg/ruler" "Config"));
  mkBlock "query_range_config"
    ("Configures how the query frontend splits and caches queries.")
    (Some (reflect.Plain reflect.Struct "github.com/grafana/loki/pkg/querier/queryrange" "Config"));
  mkBlock "runtime_config"
    ("Configures the runtime config file and how often it is reloaded.")
    (Some (reflect.Plain reflect.Struct "github.com/grafana/dskit/runtimeconfig" "Config"));
  mkBlock "memberlist_config"
    ("Configures how ring members communicate with each other using memberlist.")
    (Some (reflect.Plain reflect.Struct "github.com/grafana/dskit/kv/memberlist" "KVConfig"));
  mkBlock "tracing_config"
    ("Configures tracing options.")
    (Some (reflect.Plain reflect.Struct "github.com/grafana/loki/pkg/tracing" "Config"));
  mkBlock "compactor_config"
    ("Configures how the compactors compact index shards for performance.")
    (Some (reflect.Plain reflect.Struct "github.com/grafana/loki/pkg/storage/stores/shipper/compactor" "Config"));
  mkBlock "query_scheduler_config"
    ("Configures the query schedulers." +:+ nl +:+ "When configured, tenant query queues are separated from the query frontend.")
    (Some (reflect.Plain reflect.Struct "github.com/grafana/loki/pkg/scheduler" "Config"));
  mkBlock "analytics_config"
    ("Configures how anonymous usage data is sent to grafana.com.")
    (Some (reflect.Plain reflect.Struct "github.com/grafana/loki/pkg/usagestats" "Config"));
  mkBlock "consul_config"
    ("Configures the Consul client.")
    (Some (reflect.Plain reflect.Struct "github.com/grafana/dskit/kv/consul" "Config"));
  mkBlock "etcd_config"
    ("Configures the etcd client.")
    (Some (reflect.Plain reflect.Struct "github.com/grafana/dskit/kv/etcd" "Config"));
  mkBlock "azure_storage_config"
    ("Configures the client for Azure Blob Storage as storage.")
    (Some (reflect.Plain reflect.Struct "github.com/grafana/loki/pkg/storage/chunk/client/azure" "BlobStorageConfig"));
  mkBlock "gcs_storage_config"
    ("Configures the client for GCS as storage.")
    (Some (reflect.Plain reflect.Struct "github.com/grafana/loki/pkg/storage/chunk/client/gcp" "GCSConfig"));
  mkBlock "s3_storage_config"
    ("Configures the client Amazon S3 as storage")
    (Some (reflect.Plain reflect.Struct "github.com/grafana/loki/pkg/storage/chunk/client/aws" "S3Config"));
  mkBlock "swift_storage_config"
    ("Configures Swift as storage")
    (Some (reflect.Plain reflect.Struct "github.com/grafana/loki/pkg/storage/chunk/client/openstack" "SwiftConfig"));
  mkBlock "filesystem_storage_config"
    ("Configures a (local) file system as storage")
    (Some (reflect.Plain reflect.Struct "github.com/grafana/loki/pkg/loki/common" "FilesystemConfig"));
  mkBlock "hedging_config"
    ("Configures how to hedge requests for the storage")
    (Some (reflect.Plain reflect.Struct "github.com/grafana/loki/pkg/storage/chunk/client/hedging" "Config"))
].

End blocks.

(** ** src/cmd/doctool/main.go *)

Module Doctool.

#[warnings="-register-all"]
Inductive Node : Type := mkNode {
  Name : string;
  Desc : string;
  Type_ : reflect.Type_;
  Tag : list string;
  Children : list Node;
  Pointer : uintptr;
  Flag : option flag.Flag;
  IsRoot : bool
}.

(** Assignments to one field of a node held by value. *)
Definition set_Children (t : Node) (cs : list Node) : Node :=
  mkNode (Name t) (Desc t) (Type_ t) (Tag t) cs (Pointer t) (Flag t) (IsRoot t).
Definition set_Flag (t : Node) (f : option flag.Flag) : Node :=
  mkNode (Name t) (Desc t) (Type_ t) (Tag t) (Children t) (Pointer t) f (IsRoot t).
Definition set_IsRoot (t : Node) (b : bool) : Node :=
  mkNode (Name t) (Desc t) (Type_ t) (Tag t) (Children t) (Pointer t) (Flag t) b.
Definition set_Desc (t : Node) (d : string) : Node :=
  mkNode (Name t) d (Type_ t) (Tag t) (Children t) (Pointer t) (Flag t) (IsRoot t).
Definition set_Pointer (t : Node) (p : uintptr) : Node :=
  mkNode (Name t) (Desc t) (Type_ t) (Tag t) (Children t) p (Flag t) (IsRoot t).

(** The switch of [getType], entered once [t.Kind()] has returned; the
    recursive calls pass [t.Elem()], which is never nil. *)
Fixpoint getType_switch (t : reflect.rtype) : string :=
  match t with
  | reflect.SliceOf _ _ e => "list[" +:+ getType_switch e +:+ "]"
  | reflect.PtrTo _ _ e => "*" +:+ getType_switch e
  | reflect.Plain k _ name =>
      match k with
      | reflect.Int | reflect.Int16 | reflect.Int32 | reflect.Int64
      | reflect.Uint | reflect.Uint16 | reflect.Uint32 | reflect.Uint64 =>
          "int"
      | reflect.Float32 | reflect.Float64 => "float"
      | reflect.Struct => name
      | _ => reflect.Kind_String k
      end
  end.

(** [getType]: [t.Kind()] on a nil interface panics. *)
Definition getType (t : reflect.Type_) : result string :=
  match t with
  | None => Panic nil_dereference
  | Some r => Ok (getType_switch r)
  end.

(** The body of the loop of [ParseTree] over the visible fields; [ParseTree]
    has the same text in the other two revisions. *)
Definition parse_fields (parse : Node → reflect.Value → result Node)
  : list (reflect.StructField * reflect.Value) → Node → result Node :=
  fix fields (fs : list (reflect.StructField * reflect.Value)) (t : Node) :=
    match fs with
    | [] => mret t
    | (field, fieldValue) :: fs' =>
        let yamlTag := reflect.yaml field in
        let '(name, tags) := parseTag yamlTag in
        if decide (name = "" ∨ name = "-") then fields fs' t
        else
          match fieldValue with
          | reflect.no_field msg => Panic msg
          | reflect.mkValue _ _ =>
              let node := mkNode name "" (Some (reflect.field_Type field)) tags
                            [] 0%N None false in
              match reflect.Kind_of (reflect.field_Type field) with
              | reflect.Struct =>
                  child ← parse node fieldValue;
                  fields fs' (set_Children t (Children t ++ [child]))
              | _ =>
                  p ← reflect.Addr_Pointer fieldValue;
                  let node := set_Pointer node p in
                  fields fs' (set_Children t (Children t ++ [node]))
              end
          end
    end.

(** [ParseTree] is called on struct values only: on the configuration and
    on the fields of kind struct that [FieldByIndex] has returned. *)
Fixpoint ParseTree (t : Node) (v : reflect.Value) {struct v} : result Node :=
  match v with
  | reflect.mkValue _ visible => parse_fields ParseTree visible t
  | reflect.no_field msg => Panic msg
  end.

(** The leaf part of [PrintConfigTree]: the text appended to the builder
    when [t.Type != nil && len(t.Children) == 0]. *)
Definition leaf_suffix (t : Node) : result string :=
  if bool_decide (Type_ t ≠ None) && bool_decide (length (Children t) = 0)
  then
    label ← getType (Type_ t);
    mret (": " +:+ label +:+
          match Flag t with
          | Some f => " -" +:+ flag.Name f +:+ "=" +:+ flag.DefValue f
          | None => ""
          end)
  else mret "".

Fixpoint PrintConfigTree (t : Node) (i : Z) : result string :=
  let sb := Name t in
  let sb := sb +:+ " (" +:+ fmt_bool (IsRoot t) +:+ ")" in
  leaf ← leaf_suffix t;
  let sb := sb +:+ leaf in
  if bool_decide (0 < length (Children t)) then
    let sb := sb +:+ " {" +:+ nl in
    sb ← print_fields PrintConfigTree i (Children t) sb;
    mret (sb +:+ (indent i +:+ "}"))
  else mret sb.

(** [type Apply func(tree Node) Node], with the effects of the closure. *)
Definition Apply (S : Type) : Type := Node → M S Node.

(** [WalkConfigTree]: the loop stores each walked child back at its index
    (it runs zero rounds on an empty slice, with or without the guard on
    the length), then [fn] receives the node holding the new children.
    The slice of children is a list that its node owns: a slice that two
    nodes share, into which the loop would store once per holder, is not
    represented; [ParseTree] builds none. *)
Fixpoint WalkConfigTree {S} (tree : Node) (fn : Apply S) : M S Node :=
  children ← mapM (λ child, WalkConfigTree child fn) (Children tree);
  fn (set_Children tree children).

Definition Tree : Node :=
  mkNode "root" "" None [] [] 0%N None false.

(** The closure of [main] that attaches the flags:
    [t.Flag = flagByPtr[t.Pointer]]; a missing key reads as nil. *)
Definition attachFlag (flagByPtr : gmap uintptr flag.Flag) (t : Node) : Node :=
  set_Flag t (flagByPtr !! Pointer t).

(** The closure of [ApplyRootBlocks]; the state is standard output.
    [block.Type] is a [reflect.Type] (blocks.go), so [t], the result of
    [reflect.TypeOf(block.Type)], describes the dynamic type of that
    interface value.  The loop has no [break]: after a match it goes on to
    the next block. *)
Fixpoint rootBlocks_loop (bs : list blocks.Block) (node : Node)
  : M string Node :=
  match bs with
  | [] => mret node
  | block :: bs' =>
      let t := reflect.TypeOf_Type (blocks.Type_ block) in
      if decide (Type_ node = t) then
        let node := set_IsRoot node true in
        let node := set_Desc node (blocks.Desc block) in
        λ out,
          match getType t with
          | Ok label =>
              rootBlocks_loop bs' node
                (out +:+ "block: " +:+ Name node +:+ " " +:+
                 blocks.Desc block +:+ " " +:+ label +:+ nl)
          | Panic msg => Panic msg
          end
      else rootBlocks_loop bs' node
  end.

Definition ApplyRootBlocks (tree : Node) (bs : list blocks.Block)
  : M string Node :=
  WalkConfigTree tree (rootBlocks_loop bs).

(** The walk of [main] over a tree, with a closure that has no effect. *)
Definition walk_pure (tree : Node) (fn : Node → Node) : result Node :=
  fst <$> WalkConfigTree (S := unit) tree (pure fn) ().

(** [main], over standard output.  [elem] is [reflect.ValueOf(root).Elem()]
    for the configuration [Config()] returns, and [fs] the flag set after
    [root.RegisterFlags(fs)]; both come from outside the tool. *)
Definition main (elem : reflect.Value) (fs : flag.FlagSet) : M string unit :=
  λ out,
    tree ← ParseTree Tree elem;
    flagByPtr ← parseFlags fs;
    tree ← walk_pure tree (attachFlag flagByPtr);
    text ← PrintConfigTree tree 0;
    let out := out +:+ text +:+ nl in
    r ← ApplyRootBlocks tree blocks.Blocks out;
    mret ((), r.2).

End Doctool.

(** ** src/unnamed/part_001 *)

Module Part001.

#[warnings="-register-all"]
Inductive ConfigTree : Type := mkConfigTree {
  Name : string;
  Tag : list string;
  Type_ : reflect.Type_;
  Fields : list ConfigTree;
  Pointer : uintptr;
  Flag : option flag.Flag
}.

Definition set_Fields (t : ConfigTree) (fs : list ConfigTree) : ConfigTree :=
  mkConfigTree (Name t) (Tag t) (Type_ t) fs (Pointer t) (Flag t).
Definition set_Flag (t : ConfigTree) (f : option flag.Flag) : ConfigTree :=
  mkConfigTree (Name t) (Tag t) (Type_ t) (Fields t) (Pointer t) f.

(** [getType] has the text of the one in src/cmd/doctool/main.go. *)
Fixpoint getType_switch (t : reflect.rtype) : string :=
  match t with
  | reflect.SliceOf _ _ e => "list[" +:+ getType_switch e +:+ "]"
  | reflect.PtrTo _ _ e => "*" +:+ getType_switch e
  | reflect.Plain k _ name =>
      match k with
      | reflect.Int | reflect.Int16 | reflect.Int32 | reflect.Int64
      | reflect.Uint | reflect.Uint16 | reflect.Uint32 | reflect.Uint64 =>
          "int"
      | reflect.Float32 | reflect.Float64 => "float"
      | reflect.Struct => name
      | _ => reflect.Kind_String k
      end
  end.

Definition getType (t : reflect.Type_) : result string :=
  match t with
  | None => Panic nil_dereference
  | Some r => Ok (getType_switch r)
  end.

Definition leaf_suffix (t : ConfigTree) : result string :=
  if bool_decide (Type_ t ≠ None) && bool_decide (length (Fields t) = 0)
  then
    label ← getType (Type_ t);
    mret (": " +:+ label +:+
          match Flag t with
          | Some f => " -" +:+ flag.Name f +:+ "=" +:+ flag.DefValue f
          | None => ""
          end)
  else mret "".

Fixpoint PrintConfigTree (t : ConfigTree) (i : Z) : result string :=
  let sb := Name t in
  leaf ← leaf_suffix t;
  let sb := sb +:+ leaf in
  if bool_decide (0 < length (Fields t)) then
    let sb := sb +:+ " {" +:+ nl in
    sb ← print_fields PrintConfigTree i (Fields t) sb;
    mret (sb +:+ (indent i +:+ "}"))
  else mret sb.

Fixpoint WalkConfigTree {S} (t : ConfigTree) (fn : ConfigTree → M S ConfigTree)
  : M S ConfigTree :=
  fields ← mapM (λ field, WalkConfigTree field fn) (Fields t);
  fn (set_Fields t fields).

Definition Root : ConfigTree :=
  mkConfigTree "root" [] None [] 0%N None.

Definition attachFlag (flagByPtr : gmap uintptr flag.Flag) (t : ConfigTree)
  : ConfigTree :=
  set_Flag t (flagByPtr !! Pointer t).

Definition walk_pure (t : ConfigTree) (fn : ConfigTree → ConfigTree)
  : result ConfigTree :=
  fst <$> WalkConfigTree (S := unit) t (pure fn) ().

End Part001.

(** ** src/unnamed/part_000 *)

Module Part000.

#[warnings="-register-all"]
Inductive Node : Type := mkNode {
  Name : string;
  Desc : string;
  Type_ : reflect.Type_;
  Tag : list string;
  Children : list Node;
  Pointer : uintptr;
  Flag : option flag.Flag
}.

Definition set_Children (t : Node) (cs : list Node) : Node :=
  mkNode (Name t) (Desc t) (Type_ t) (Tag t) cs (Pointer t) (Flag t).

(** The analysed configuration.  [Value] is never assigned.  [FlagPrefix]
    is declared [string] but [Apply] appends to it; it is a slice here.
    [Fields] holds pointers, never nil, to the nested blocks. *)
Module ConfigBlock.
#[warnings="-register-all"]
Inductive t : Type := mk {
  Name : string;
  Desc : string;
  Type_ : string;
  Value : option reflect.eface;
  FlagName : string;
  FlagPrefix : list string;
  Fields : list t;
  IsRoot : bool
}.
Definition set_Desc (b : t) (d : string) : t :=
  mk (Name b) d (Type_ b) (Value b) (FlagName b) (FlagPrefix b) (Fields b) (IsRoot b).
Definition set_FlagName (b : t) (n : string) : t :=
  mk (Name b) (Desc b) (Type_ b) (Value b) n (FlagPrefix b) (Fields b) (IsRoot b).
Definition set_FlagPrefix (b : t) (p : list string) : t :=
  mk (Name b) (Desc b) (Type_ b) (Value b) (FlagName b) p (Fields b) (IsRoot b).
Definition set_Fields (b : t) (fs : list t) : t :=
  mk (Name b) (Desc b) (Type_ b) (Value b) (FlagName b) (FlagPrefix b) fs (IsRoot b).
Definition set_IsRoot (b : t) (r : bool) : t :=
  mk (Name b) (Desc b) (Type_ b) (Value b) (FlagName b) (FlagPrefix b) (Fields b) r.
End ConfigBlock.

(** A struct is labelled with its package path and name. *)
Fixpoint getType_switch (t : reflect.rtype) : string :=
  match t with
  | reflect.SliceOf _ _ e => "list[" +:+ getType_switch e +:+ "]"
  | reflect.PtrTo _ _ e => "*" +:+ getType_switch e
  | reflect.Plain k pkg name =>
      match k with
      | reflect.Int | reflect.Int16 | reflect.Int32 | reflect.Int64
      | reflect.Uint | reflect.Uint16 | reflect.Uint32 | reflect.Uint64 =>
          "int"
      | reflect.Float32 | reflect.Float64 => "float"
      | reflect.Struct => pkg +:+ "." +:+ name
      | _ => reflect.Kind_String k
      end
  end.

(** [if t == nil { return "-" }] precedes the switch. *)
Definition getType (t : reflect.Type_) : result string :=
  match t with
  | None => Ok "-"
  | Some r => Ok (getType_switch r)
  end.

Definition leaf_suffix (t : Node) : result string :=
  if bool_decide (Type_ t ≠ None) && bool_decide (length (Children t) = 0)
  then
    label ← getType (Type_ t);
    mret (": " +:+ label +:+
          match Flag t with
          | Some f => " -" +:+ flag.Name f +:+ "=" +:+ flag.DefValue f
          | None => ""
          end)
  else mret "".

Fixpoint PrintConfigTree (t : Node) (i : Z) : result string :=
  let sb := Name t in
  leaf ← leaf_suffix t;
  let sb := sb +:+ leaf in
  if bool_decide (0 < length (Children t)) then
    let sb := sb +:+ " {" +:+ nl in
    sb ← print_fields PrintConfigTree i (Children t) sb;
    mret (sb +:+ (indent i +:+ "}"))
  else mret sb.

(** [type ApplyFunc func(tree Node) Node] and
    [type TransformFunc func(tree Node) *ConfigBlock]; the pointer a
    transform returns may be nil. *)
Definition ApplyFunc (S : Type) : Type := Node → M S Node.
Definition TransformFunc (S : Type) : Type := Node → M S (option ConfigBlock.t).

Fixpoint WalkConfigTree {S} (tree : Node) (fn : ApplyFunc S) : M S Node :=
  children ← mapM (λ child, WalkConfigTree child fn) (Children tree);
  fn (set_Children tree children).

(** [b.Fields = append(b.Fields, child)]: a store through [b], which
    panics when [b] is nil. *)
Definition append_field {S} (b : option ConfigBlock.t) (child : ConfigBlock.t)
  : M S (option ConfigBlock.t) :=
  match b with
  | Some blk =>
      mret (Some (ConfigBlock.set_Fields blk (ConfigBlock.Fields blk ++ [child])))
  | None => λ _, Panic nil_dereference
  end.

(** The loop of [AnalyzeConfigTree] over the children: each child is
    analysed and a non-nil result appended to the fields of [b]. *)
Definition analyze_fields {S} (analyze : Node → M S (option ConfigBlock.t))
  : list Node → option ConfigBlock.t → M S (option ConfigBlock.t) :=
  fix fields (cs : list Node) (b : option ConfigBlock.t) :=
    match cs with
    | [] => mret b
    | c :: cs' =>
        child ← analyze c;
        match child with
        | Some ch => b' ← append_field b ch; fields cs' b'
        | None => fields cs' b
        end
    end.

(** [AnalyzeConfigTree]: [fn] is applied to the node first; the children
    are analysed afterwards. *)
Fixpoint AnalyzeConfigTree {S} (tree : Node) (fn : TransformFunc S)
  : M S (option ConfigBlock.t) :=
  b ← fn tree;
  analyze_fields (λ c, AnalyzeConfigTree c fn) (Children tree) b.

(** [Tree(cfg)]: the root carries the dynamic type of [cfg]. *)
Definition Tree (cfg : option reflect.eface) : Node :=
  mkNode "root" "" (reflect.TypeOf cfg) [] [] 0%N None.

(** [blockForNode]: the first block whose type is the node's; the second
    result of the source is whether this is [Some]. *)
Fixpoint blockForNode (n : Node) (bs : list blocks.Block) : option blocks.Block :=
  match bs with
  | [] => None
  | bb :: bs' =>
      if decide (Type_ n = blocks.Type_ bb) then Some bb
      else blockForNode n bs'
  end.

Section Apply.

(** [getFlagPrefix] is called by [Apply] and declared nowhere in the
    repository; its result is a parameter. *)
Variable getFlagPrefix : string.

(** The closure of [Apply].  The index holds flags, as [parseFlags] stores
    them: a nil pointer under a key, whose [Name] cannot be read, is not
    represented. *)
Definition Apply_node (bs : list blocks.Block)
  (flagMap : gmap uintptr flag.Flag) (node : Node) : result ConfigBlock.t :=
  label ← getType (Type_ node);
  let b := ConfigBlock.mk (Name node) (Desc node) label None "" [] [] false in
  let b :=
    match blockForNode node bs with
    | Some rootBlock =>
        let b := ConfigBlock.set_IsRoot b true in
        let b := ConfigBlock.set_FlagPrefix b
                   (ConfigBlock.FlagPrefix b ++ [getFlagPrefix]) in
        ConfigBlock.set_Desc b (blocks.Desc rootBlock)
    | None => b
    end in
  let b :=
    match flagMap !! Pointer node with
    | Some flag =>
        let b := ConfigBlock.set_FlagName b (flag.Name flag) in
        ConfigBlock.set_Desc b (flag.Usage flag)
    | None => b
    end in
  mret b.

Definition Apply (tree : Node) (bs : list blocks.Block)
  (flagMap : gmap uintptr flag.Flag) : M unit (option ConfigBlock.t) :=
  AnalyzeConfigTree tree (λ node s,
    match Apply_node bs flagMap node with
    | Ok b => Ok (Some b, s)
    | Panic msg => Panic msg
    end).

End Apply.

End Part000.

(** ** Vocabulary of the properties *)

(** A run of [n] spaces. *)
Fixpoint spaces (n : nat) : string :=
  match n with
  | O => ""
  | S n' => " " +:+ spaces n'
  end.

(** The flag suffix of a rendered leaf. *)
Definition flag_suffix (f : option flag.Flag) : string :=
  match f with
  | Some f => " -" +:+ flag.Name f +:+ "=" +:+ flag.DefValue f
  | None => ""
  end.

(** The lines a branch prints for its children, given their renderings. *)
Definition field_lines (i : Z) (renderings : list string) : string :=
  foldr (λ line rest, (indent (int_add i 1) +:+ line +:+ nl) +:+ rest) ""
    renderings.

(** A flag that can be stored under the pointer [p]: it does not render as
    "deprecated" and the pointer of its value is [p]. *)
Definition binds (p : uintptr) (f : flag.Flag) : Prop :=
  flag.String_ (flag.Value_ f) ≠ "deprecated" ∧ flag.Pointer (flag.Value_ f) = Ok p.

#[global] Instance binds_dec p f : Decision (binds p f).
Proof. unfold binds. apply _. Defined.

(** The flag the spec's tie-break selects for [p]: the last one, in the
    order of enumeration, that binds [p]. *)
Definition last_bound (fs : flag.FlagSet) (p : uintptr) : option flag.Flag :=
  last (filter (binds p) fs).





(** What the closure of [ApplyRootBlocks] compares a node type with: the
    result of [reflect.TypeOf] on the type held by the block. *)
Definition loop_matches (ty : reflect.Type_) (b : blocks.Block) : Prop :=
  ty = reflect.TypeOf_Type (blocks.Type_ b).

#[global] Instance loop_matches_dec ty b : Decision (loop_matches ty b).
Proof. unfold loop_matches. apply _. Defined.

(** Whether a character occurs in a string. *)
Fixpoint occurs (c : ascii) (s : string) : bool :=
  match s with
  | EmptyString => false
  | String a s' => Ascii.eqb a c || occurs c s'
  end.

(** A tag written out from its name and its modifiers. *)
Definition join_tag (name : string) (modifiers : list string) : string :=
  name +:+ foldr (λ m rest, "," +:+ m +:+ rest) "" modifiers.

(** A visible field that [ParseTree] does not skip. *)
Definition documented (f : reflect.StructField * reflect.Value) : Prop :=
  (parseTag (reflect.yaml f.1)).1 ≠ "" ∧ (parseTag (reflect.yaml f.1)).1 ≠ "-".

#[global] Instance documented_dec f : Decision (documented f).
Proof. unfold documented. apply _. Defined.


(** A value all of whose visible fields, at every depth, can be reached by
    [FieldByIndex] and are addressable. *)
#[warnings="-register-all"]
Inductive addressable : reflect.Value → Prop :=
| addressable_intro p visible :
    Forall (λ fv : reflect.StructField * reflect.Value, addressable fv.2) visible →
    addressable (reflect.mkValue (Ok p) visible).

Module DoctoolSpec.
Import Doctool.

(** The number of nodes of a tree. *)
Fixpoint size (t : Node) : nat :=
  S (list_sum (map size (Children t))).

(** A property that holds of a node and of all its descendants. *)
#[warnings="-register-all"]
Inductive all_nodes (P : Node → Prop) : Node → Prop :=
| all_nodes_intro t :
    P t → Forall (all_nodes P) (Children t) → all_nodes P t.

(** What [ParseTree] leaves in a node it builds for a field: a type, no
    description, flag or root mark; an address only when the type is not a
    struct, and children only when it is. *)
Definition field_node (t : Node) : Prop :=
  ∃ ty, Type_ t = Some ty ∧ Desc t = "" ∧ Flag t = None ∧ IsRoot t = false
        ∧ (reflect.Kind_of ty = reflect.Struct → Pointer t = 0%N)
        ∧ (reflect.Kind_of ty ≠ reflect.Struct → Children t = []).

(** The node [ParseTree] appends for a documented field. *)
Definition built_from (child : Node) (f : reflect.StructField * reflect.Value)
  : Prop :=
  Name child = (parseTag (reflect.yaml f.1)).1
  ∧ Tag child = (parseTag (reflect.yaml f.1)).2
  ∧ Type_ child = Some (reflect.field_Type f.1)
  ∧ if decide (reflect.Kind_of (reflect.field_Type f.1) = reflect.Struct)
    then Pointer child = 0%N
         ∧ ParseTree (mkNode (Name child) "" (Type_ child) (Tag child) []
                        0%N None false) f.2 = Ok child
    else Children child = []
         ∧ reflect.Addr_Pointer f.2 = Ok (Pointer child).

(** The node found by following child indices from the root. *)
Fixpoint subnode (path : list nat) (t : Node) : option Node :=
  match path with
  | [] => Some t
  | i :: path' => Children t !! i ≫= subnode path'
  end.

(** The walk as a function, for a closure without effects. *)
Fixpoint walk_fun (fn : Node → Node) (t : Node) : Node :=
  fn (set_Children t (map (walk_fun fn) (Children t))).

(** The arguments of the calls of the walk, children first. *)
Fixpoint post_order (fn : Node → Node) (t : Node) : list Node :=
  concat (map (post_order fn) (Children t))
  ++ [set_Children t (map (walk_fun fn) (Children t))].




(** The text tree as the spec words it: a leaf is its name, the type label
    and the flag suffix; a branch is its name, an opening brace, one line
    per child, one level deeper, and the closing brace at its own level.
    In this revision the name is followed by the root marker. *)
Definition heading (t : Node) : string :=
  Name t +:+ " (" +:+ fmt_bool (IsRoot t) +:+ ")".

Fixpoint render (t : Node) (i : Z) : string :=
  match Children t with
  | [] =>
      match Type_ t with
      | Some ty => heading t +:+ ": " +:+ getType_switch ty +:+ flag_suffix (Flag t)
      | None => heading t
      end
  | _ =>
      heading t +:+ " {" +:+ nl
      +:+ field_lines i (map (λ c, render c (int_add i 1)) (Children t))
      +:+ indent i +:+ "}"
  end.

(** Two trees of the same shape that agree on every field but [Flag]. *)
#[warnings="-register-all"]
Inductive same_except_Flag : Node → Node → Prop :=
| same_except_Flag_intro t t' :
    Name t' = Name t → Desc t' = Desc t → Type_ t' = Type_ t →
    Tag t' = Tag t → Pointer t' = Pointer t → IsRoot t' = IsRoot t →
    Forall2 same_except_Flag (Children t) (Children t') →
    same_except_Flag t t'.

End DoctoolSpec.

Module Part001Spec.
Import Part001.

Fixpoint walk_fun (fn : ConfigTree → ConfigTree) (t : ConfigTree) : ConfigTree :=
  fn (set_Fields t (map (walk_fun fn) (Fields t))).

(** The text tree as the spec words it. *)
Fixpoint render (t : ConfigTree) (i : Z) : string :=
  match Fields t with
  | [] =>
      match Type_ t with
      | Some ty => Name t +:+ ": " +:+ getType_switch ty +:+ flag_suffix (Flag t)
      | None => Name t
      end
  | _ =>
      Name t +:+ " {" +:+ nl
      +:+ field_lines i (map (λ c, render c (int_add i 1)) (Fields t))
      +:+ indent i +:+ "}"
  end.

#[warnings="-register-all"]
Inductive same_except_Flag : ConfigTree → ConfigTree → Prop :=
| same_except_Flag_intro t t' :
    Name t' = Name t → Type_ t' = Type_ t →
    Tag t' = Tag t → Pointer t' = Pointer t →
    Forall2 same_except_Flag (Fields t) (Fields t') →
    same_except_Flag t t'.

End Part001Spec.

Module Part000Spec.
Import Part000.

(** The number of nodes of a tree. *)
Fixpoint size (t : Node) : nat :=
  S (list_sum (map size (Children t))).

(** A document that has the shape of a tree: the name and the type label
    of the node, and one field per child, in the order of the children. *)
#[warnings="-register-all"]
Inductive mirrors : Node → ConfigBlock.t → Prop :=
| mirrors_intro t b :
    ConfigBlock.Name b = Name t →
    getType (Type_ t) = Ok (ConfigBlock.Type_ b) →
    Forall2 mirrors (Children t) (ConfigBlock.Fields b) →
    mirrors t b.

(** The text tree as the spec words it. *)
Fixpoint render (t : Node) (i : Z) : string :=
  match Children t with
  | [] =>
      match Type_ t with
      | Some ty => Name t +:+ ": " +:+ getType_switch ty +:+ flag_suffix (Flag t)
      | None => Name t
      end
  | _ =>
      Name t +:+ " {" +:+ nl
      +:+ field_lines i (map (λ c, render c (int_add i 1)) (Children t))
      +:+ indent i +:+ "}"
  end.

(** The arguments of the calls of the fold, in call order. *)
Fixpoint pre_order (t : Node) : list Node :=
  t :: concat (map pre_order (Children t)).

(** The node found by following child indices from the root, and the
    places of a tree, parent first. *)
Fixpoint subnode (path : list nat) (t : Node) : option Node :=
  match path with
  | [] => Some t
  | i :: path' => Children t !! i ≫= subnode path'
  end.


(** The fold as a function, for a transform without effects that never
    returns nil: the documents of the children follow the fields the
    transform itself produced, in the order of the children. *)
Fixpoint fold_doc (fn : Node → ConfigBlock.t) (t : Node) : ConfigBlock.t :=
  ConfigBlock.set_Fields (fn t)
    (ConfigBlock.Fields (fn t) ++ map (fold_doc fn) (Children t)).

End Part000Spec.

(** ** Sample inputs *)

Module Sample.

Definition int_type : reflect.rtype := reflect.Plain reflect.Int "" "int".

(** Two flags registered on the same variable, in the order [VisitAll]
    visits them, and a deprecated flag, whose value is a struct. *)
Definition max_size : flag.Flag :=
  flag.mkFlag "server.max-size" "Maximum size." (flag.mkValue "5" (Ok 1%N)) "5".
Definition size_alias : flag.Flag :=
  flag.mkFlag "server.size" "Alias of server.max-size." (flag.mkValue "5" (Ok 1%N)) "5".
Definition old_size : flag.Flag :=
  flag.mkFlag "server.old-size" "Deprecated."
    (flag.mkValue "deprecated" (Panic "reflect: call of reflect.Value.Pointer on struct Value"))
    "deprecated".

(** A root with the single leaf [max_size: int], stored at address 1. *)
Definition leaf : Doctool.Node :=
  Doctool.mkNode "max_size" "" (Some int_type) [] [] 1%N None false.
Definition tree : Doctool.Node :=
  Doctool.set_Children Doctool.Tree [leaf].

(** The same tree in part_000, below the root built for [&loki.Config{}],
    and a transform that copies the name. *)
Definition config_type : reflect.rtype :=
  reflect.PtrTo "" ""
    (reflect.Plain reflect.Struct "github.com/grafana/loki/pkg/loki" "Config").
Definition leaf0 : Part000.Node :=
  Part000.mkNode "max_size" "" (Some int_type) [] [] 1%N None.
Definition tree0 : Part000.Node :=
  Part000.set_Children
    (Part000.Tree (Some (reflect.mk_eface config_type 0%N))) [leaf0].
Definition name_only (n : Part000.Node) : Part000.ConfigBlock.t :=
  Part000.ConfigBlock.mk (Part000.Name n) "" "" None "" [] [] false.

(** A leaf of type [time.Duration] at address 1, a registry that lists
    this type as a block, and the index holding the flag of the leaf. *)
Definition duration_type : reflect.rtype :=
  reflect.Plain reflect.Int64 "time" "Duration".
Definition ttl : Part000.Node :=
  Part000.mkNode "ttl" "" (Some duration_type) [] [] 1%N None.
Definition ttl_block : blocks.Block :=
  blocks.mkBlock "ttl_config" "How long entries live." (Some duration_type).
Definition ttl_flag : flag.Flag :=
  flag.mkFlag "cache.ttl" "Time to live." (flag.mkValue "1h0m0s" (Ok 1%N)) "1h0m0s".

(** A registry that lists one type twice. *)
Definition common_type : reflect.rtype :=
  reflect.Plain reflect.Struct "github.com/grafana/loki/pkg/loki/common" "Config".
Definition twice (t : reflect.rtype) : list blocks.Block :=
  [blocks.mkBlock "first_config" "First." (Some t);
   blocks.mkBlock "second_config" "Second." (Some t)].
Definition common_node : Doctool.Node :=
  Doctool.mkNode "common" "" (Some common_type) [] [] 0%N None false.
Definition common_node0 : Part000.Node :=
  Part000.mkNode "common" "" (Some common_type) [] [] 0%N None.
Definition rtype_node : Doctool.Node :=
  Doctool.mkNode "type" "" (Some reflect.rtype_pointer) [] [] 0%N None false.

(** A field of the struct type [time.Time], which has no documentable
    field: the node [ParseTree] appends for it has a type and no child. *)
Definition time_type : reflect.rtype := reflect.Plain reflect.Struct "time" "Time".
Definition start : Doctool.Node :=
  Doctool.mkNode "start" "" (Some time_type) [] [] 0%N None false.
Definition start0 : Part000.Node :=
  Part000.mkNode "start" "" (Some time_type) [] [] 0%N None.
Definition start1 : Part001.ConfigTree :=
  Part001.mkConfigTree "start" [] (Some time_type) [] 0%N None.

(** A configuration value with the fields [name1], [name2,omitempty] and
    [-], and one with a field [start] of type [time.Time], whose own
    fields carry no yaml tag. *)
Definition three_fields : reflect.Value :=
  reflect.mkValue (Ok 100%N)
    [(reflect.mkStructField "name1" int_type, reflect.mkValue (Ok 101%N) []);
     (reflect.mkStructField "name2,omitempty" int_type, reflect.mkValue (Ok 102%N) []);
     (reflect.mkStructField "-" int_type, reflect.mkValue (Ok 103%N) [])].
Definition with_start : reflect.Value :=
  reflect.mkValue (Ok 200%N)
    [(reflect.mkStructField "start" time_type,
      reflect.mkValue (Ok 201%N)
        [(reflect.mkStructField "" (reflect.Plain reflect.Uint64 "" "uint64"),
          reflect.mkValue (Ok 201%N) []);
         (reflect.mkStructField "" (reflect.Plain reflect.Int64 "" "int64"),
          reflect.mkValue (Ok 209%N) [])])].

(** A configuration value with the field [server] of a struct type, which
    holds the field [max_size] at address 1, and the tree built from it. *)
Definition server_type : reflect.rtype :=
  reflect.Plain reflect.Struct "github.com/grafana/loki/pkg/server" "Config".
Definition with_server : reflect.Value :=
  reflect.mkValue (Ok 300%N)
    [(reflect.mkStructField "server" server_type,
      reflect.mkValue (Ok 300%N)
        [(reflect.mkStructField "max_size" int_type,
          reflect.mkValue (Ok 1%N) [])])].
Definition server : Doctool.Node :=
  Doctool.mkNode "server" "" (Some server_type) [] [leaf] 0%N None false.
Definition server_tree : Doctool.Node :=
  Doctool.set_Children Doctool.Tree [server].

End Sample.

(** * Properties *)

(** ** Induction over trees, with the children as a list *)

Lemma Doctool_Node_ind (P : Doctool.Node → Prop) :
  (∀ t, Forall P (Doctool.Children t) → P t) → ∀ t, P t.
Proof.
  intros step. fix rec 1. intros [name desc ty tag cs ptr fl root].
  apply step. simpl. induction cs as [|c cs IH]; constructor; [apply rec | exact IH].
Qed.

Lemma Part001_ConfigTree_ind (P : Part001.ConfigTree → Prop) :
  (∀ t, Forall P (Part001.Fields t) → P t) → ∀ t, P t.
Proof.
  intros step. fix rec 1. intros [name tag ty cs ptr fl].
  apply step. simpl. induction cs as [|c cs IH]; constructor; [apply rec | exact IH].
Qed.

Lemma Part000_Node_ind (P : Part000.Node → Prop) :
  (∀ t, Forall P (Part000.Children t) → P t) → ∀ t, P t.
Proof.
  intros step. fix rec 1. intros [name desc ty tag cs ptr fl].
  apply step. simpl. induction cs as [|c cs IH]; constructor; [apply rec | exact IH].
Qed.

(** ** Tree Builder *)

(** [ParseTree] appends children and changes nothing else of the node it
    is given: the root stays named "root", without a type. *)
Lemma parse_fields_keeps (parse : Doctool.Node → reflect.Value → result Doctool.Node)
  (fs : list (reflect.StructField * reflect.Value)) :
  ∀ t t', Doctool.parse_fields parse fs t = Ok t' →
  Doctool.Name t' = Doctool.Name t ∧ Doctool.Type_ t' = Doctool.Type_ t
  ∧ ∃ more, Doctool.Children t' = Doctool.Children t ++ more.
Proof.
  induction fs as [|[field fieldValue] fs IH]; intros t t' Hrun; simpl in Hrun.
  - injection Hrun as <-. repeat split. exists []. by rewrite app_nil_r.
  - destruct (parseTag (reflect.yaml field)) as [name tags].
    destruct (decide (name = "" ∨ name = "-")); [by apply IH|].
    assert (∀ child, Doctool.parse_fields parse fs
              (Doctool.set_Children t (Doctool.Children t ++ [child])) = Ok t' →
            Doctool.Name t' = Doctool.Name t ∧ Doctool.Type_ t' = Doctool.Type_ t
            ∧ ∃ more, Doctool.Children t' = Doctool.Children t ++ more) as Hstep.
    { intros child Hrest. destruct (IH _ _ Hrest) as (Hn & Hty & more & Hcs).
      destruct t; simpl in *. repeat split; [done..|].
      exists (child :: more). by rewrite Hcs, <- app_assoc. }
    destruct fieldValue as [addr visible|msg]; [|done].
    unfold reflect.Addr_Pointer in Hrun.
    destruct (reflect.Kind_of (reflect.field_Type field));
      first [ destruct addr; [|done]; by eapply Hstep
            | destruct (parse _ (reflect.mkValue addr visible)); [|done];
              by eapply Hstep ].
Qed.

Lemma ParseTree_root (v : reflect.Value) (tree : Doctool.Node) :
  Doctool.ParseTree Doctool.Tree v = Ok tree →
  Doctool.Name tree = "root" ∧ Doctool.Type_ tree = None.
Proof.
  destruct v as [addr visible|msg]; simpl; intros Hrun; [|done].
  by destruct (parse_fields_keeps _ _ _ _ Hrun) as (-> & -> & _).
Qed.

(** The scenario of the spec: the fields [name1], [name2,omitempty] and [-]
    give two children, the second with the modifier [omitempty]. *)
Lemma ParseTree_three_fields :
  Doctool.ParseTree Doctool.Tree Sample.three_fields
  = Ok (Doctool.set_Children Doctool.Tree
          [Doctool.mkNode "name1" "" (Some Sample.int_type) [] [] 101%N None false;
           Doctool.mkNode "name2" "" (Some Sample.int_type) ["omitempty"] []
             102%N None false]).
Proof. reflexivity. Qed.

(** A field of a struct type without documentable fields gives a node with
    a type and without children. *)
Lemma ParseTree_empty_struct :
  Doctool.ParseTree Doctool.Tree Sample.with_start
  = Ok (Doctool.set_Children Doctool.Tree [Sample.start]).
Proof. reflexivity. Qed.

(** ** Type Classifier *)

Section Classifier.

Import reflect.

(** The eight kinds of the first case are labelled "int", in each revision. *)
Lemma getType_listed_int (t : rtype) :
  listed_int_kind (Kind_of t) = true →
  Doctool.getType (Some t) = Ok "int"
  ∧ Part000.getType (Some t) = Ok "int"
  ∧ Part001.getType (Some t) = Ok "int".
Proof. destruct t as [| |k pkg name]; [done..|]. by destruct k. Qed.

(** Both floating kinds are labelled "float", in each revision. *)
Lemma getType_float (t : rtype) :
  is_float_kind (Kind_of t) = true →
  Doctool.getType (Some t) = Ok "float"
  ∧ Part000.getType (Some t) = Ok "float"
  ∧ Part001.getType (Some t) = Ok "float".
Proof. destruct t as [| |k pkg name]; [done..|]. by destruct k. Qed.

(** The integer kinds missing from the first case reach the default case
    and are labelled with the name of their kind. *)
Lemma getType_unlisted_int (t : rtype) :
  is_integer_kind (Kind_of t) = true →
  listed_int_kind (Kind_of t) = false →
  Doctool.getType (Some t) = Ok (Kind_String (Kind_of t))
  ∧ Part000.getType (Some t) = Ok (Kind_String (Kind_of t))
  ∧ Part001.getType (Some t) = Ok (Kind_String (Kind_of t)).
Proof. destruct t as [| |k pkg name]; [done..|]. by destruct k. Qed.

(** C3, at the failing inputs: the descriptors of [int8] and [uint8] are of
    the integer family, yet each revision of the classifier labels them
    "int8" and "uint8" instead of "int". *)
Theorem getType_eight_bit_integers :
  let int8 := Plain Int8 "" "int8" in
  let uint8 := Plain Uint8 "" "uint8" in
  is_integer_kind (Kind_of int8) = true
  ∧ is_integer_kind (Kind_of uint8) = true
  ∧ Doctool.getType (Some int8) = Ok "int8"
  ∧ Part000.getType (Some int8) = Ok "int8"
  ∧ Part001.getType (Some int8) = Ok "int8"
  ∧ Doctool.getType (Some uint8) = Ok "uint8"
  ∧ Part000.getType (Some uint8) = Ok "uint8"
  ∧ Part001.getType (Some uint8) = Ok "uint8".
Proof. repeat split. Qed.

(** Every revision labels every descriptor that is present. *)
Lemma getType_present (t : rtype) :
  is_Ok (Doctool.getType (Some t))
  ∧ is_Ok (Part000.getType (Some t))
  ∧ is_Ok (Part001.getType (Some t)).
Proof. repeat split; by eexists. Qed.

(** The classifier of part_000 is total, with "-" for the absent type. *)
Lemma Part000_getType_total (t : Type_) :
  Part000.getType None = Ok "-" ∧ is_Ok (Part000.getType t).
Proof. split; [done|]. destruct t; by eexists. Qed.

End Classifier.

(** C4, at the failing input: on the absent (nil) descriptor the classifiers
    of src/cmd/doctool/main.go and of part_001 panic instead of returning
    the placeholder "-", which only the classifier of part_000 returns; and
    the block matcher of main.go does pass nil to its classifier, when the
    root meets a registry entry without a type. *)
Theorem getType_nil :
  Doctool.getType None = Panic nil_dereference
  ∧ Part001.getType None = Panic nil_dereference
  ∧ Part000.getType None = Ok "-"
  ∧ Doctool.ApplyRootBlocks Doctool.Tree [blocks.mkBlock "b" "d" None] ""
    = Panic nil_dereference.
Proof. repeat split. Qed.

(** ** The root node *)

(** C9, as stated, fails for part_000: the root built for the configuration
    value [&loki.Config{}] carries the descriptor of [*loki.Config]. *)
Lemma Part000_Tree_has_type :
  let cfg := reflect.mk_eface
    (reflect.PtrTo "" ""
       (reflect.Plain reflect.Struct "github.com/grafana/loki/pkg/loki" "Config"))
    0 in
  Part000.Name (Part000.Tree (Some cfg)) = "root"
  ∧ Part000.Type_ (Part000.Tree (Some cfg)) ≠ None.
Proof. split; [reflexivity | discriminate]. Qed.

(** C9, amended: the root is always named "root"; it has no declared type
    in src/cmd/doctool/main.go and in part_001, whereas in part_000 its
    declared type is the dynamic type of the configuration value, absent
    exactly when that value is nil. *)
Theorem Tree_root :
  (Doctool.Name Doctool.Tree = "root" ∧ Doctool.Type_ Doctool.Tree = None)
  ∧ (Part001.Name Part001.Root = "root" ∧ Part001.Type_ Part001.Root = None)
  ∧ ∀ cfg,
      Part000.Name (Part000.Tree cfg) = "root"
      ∧ Part000.Type_ (Part000.Tree cfg) = reflect.TypeOf cfg
      ∧ (Part000.Type_ (Part000.Tree cfg) = None ↔ cfg = None).
Proof.
  repeat split; destruct cfg; simpl; congruence.
Qed.

(** ** The walk *)

Section MapM.

Context {S A B : Type}.

(** A loop whose rounds all return is the map of their results, with the
    state threaded through the rounds in order. *)
Lemma mapM_returns (f : A → M S B) (g : A → B) (k : A → S → S) (l : list A) :
  Forall (λ a, ∀ s, f a s = Ok (g a, k a s)) l →
  ∀ s, mapM f l s = Ok (map g l, foldl (λ s a, k a s) s l).
Proof.
  induction 1 as [|a l Ha _ IH]; intros s; [reflexivity|].
  simpl. unfold mbind, M_bind at 1. rewrite Ha.
  unfold mbind, M_bind at 1. rewrite IH. reflexivity.
Qed.

End MapM.


Lemma foldl_unchanged {A S} (l : list A) (s : S) :
  foldl (λ s _, s) s l = s.
Proof. by induction l. Qed.

Lemma Doctool_walk_unfold {S} (t : Doctool.Node) (fn : Doctool.Apply S) (s : S) :
  Doctool.WalkConfigTree t fn s =
  match mapM (λ c, Doctool.WalkConfigTree c fn) (Doctool.Children t) s with
  | Ok (cs, s') => fn (Doctool.set_Children t cs) s'
  | Panic msg => Panic msg
  end.
Proof. by destruct t. Qed.

(** With a closure without effects the walk returns, leaves the state as
    it was, and computes [walk_fun]. *)
Lemma Doctool_walk_pure {S} (fn : Doctool.Node → Doctool.Node) (t : Doctool.Node) :
  ∀ s : S, Doctool.WalkConfigTree t (pure fn) s = Ok (DoctoolSpec.walk_fun fn t, s).
Proof.
  induction t as [t IH] using Doctool_Node_ind. intros s.
  rewrite Doctool_walk_unfold.
  rewrite (mapM_returns _ (DoctoolSpec.walk_fun fn) (λ _ s, s) _ IH).
  rewrite foldl_unchanged. by destruct t.
Qed.

Lemma Doctool_walk_pure_run (fn : Doctool.Node → Doctool.Node) (t : Doctool.Node) :
  Doctool.walk_pure t fn = Ok (DoctoolSpec.walk_fun fn t).
Proof. unfold Doctool.walk_pure. by rewrite Doctool_walk_pure. Qed.


Lemma Part001_walk_pure {S} (fn : Part001.ConfigTree → Part001.ConfigTree)
  (t : Part001.ConfigTree) :
  ∀ s : S, Part001.WalkConfigTree t (pure fn) s = Ok (Part001Spec.walk_fun fn t, s).
Proof.
  induction t as [t IH] using Part001_ConfigTree_ind. intros s.
  assert (Part001.WalkConfigTree t (pure fn) s =
    match mapM (λ c, Part001.WalkConfigTree c (pure fn)) (Part001.Fields t) s with
    | Ok (cs, s') => pure fn (Part001.set_Fields t cs) s'
    | Panic msg => Panic msg
    end) as -> by by destruct t.
  rewrite (mapM_returns _ (Part001Spec.walk_fun fn) (λ _ s, s) _ IH).
  rewrite foldl_unchanged. by destruct t.
Qed.

(** ** The flag annotation changes the flags only *)

Lemma Doctool_attach_frame (m : gmap uintptr flag.Flag) (t : Doctool.Node) :
  DoctoolSpec.same_except_Flag t (DoctoolSpec.walk_fun (Doctool.attachFlag m) t).
Proof.
  induction t as [t IH] using Doctool_Node_ind.
  destruct t as [name desc ty tag cs ptr fl root]; simpl in *.
  constructor; try reflexivity. simpl.
  induction IH as [|c cs Hc _ IHcs]; constructor; assumption.
Qed.

Lemma Part001_attach_frame (m : gmap uintptr flag.Flag) (t : Part001.ConfigTree) :
  Part001Spec.same_except_Flag t (Part001Spec.walk_fun (Part001.attachFlag m) t).
Proof.
  induction t as [t IH] using Part001_ConfigTree_ind.
  destruct t as [name tag ty cs ptr fl]; simpl in *.
  constructor; try reflexivity. simpl.
  induction IH as [|c cs Hc _ IHcs]; constructor; assumption.
Qed.

(** C10: the flag-annotation walk of src/cmd/doctool/main.go and of
    part_001 returns, for every tree and every identity-to-flag map, a tree
    in which every node has the Name, Desc, Type, Tag and Pointer (and, in
    main.go, IsRoot) it had before, and the same children in the same
    order; only Flag may differ. *)
Theorem flag_annotation_frame (m : gmap uintptr flag.Flag) :
  (∀ tree, ∃ tree',
      Doctool.walk_pure tree (Doctool.attachFlag m) = Ok tree'
      ∧ DoctoolSpec.same_except_Flag tree tree')
  ∧ (∀ tree, ∃ tree',
      Part001.walk_pure tree (Part001.attachFlag m) = Ok tree'
      ∧ Part001Spec.same_except_Flag tree tree').
Proof.
  split; intros tree.
  - eexists. split; [apply Doctool_walk_pure_run | apply Doctool_attach_frame].
  - eexists. split; [|apply Part001_attach_frame].
    unfold Part001.walk_pure. by rewrite Part001_walk_pure.
Qed.

(** ** The identity-to-flag map *)

(** What the map holds after the visit of [fs], started from [acc]: under
    each pointer, the last flag of [fs] that binds it, or else what [acc]
    held. *)
Lemma VisitAll_lookup (fs : flag.FlagSet) :
  ∀ acc m, VisitAll fs parseFlags_visit acc = Ok m →
  ∀ p, m !! p = match last_bound fs p with
                | Some f => Some f
                | None => acc !! p
                end.
Proof.
  unfold last_bound.
  induction fs as [|f fs IH]; intros acc m Hrun p.
  - by injection Hrun as <-.
  - change (parseFlags_visit acc f ≫= VisitAll fs parseFlags_visit = Ok m) in Hrun.
    destruct (parseFlags_visit acc f) as [acc'|msg] eqn:Hvisit; [|discriminate].
    simpl in Hrun. rewrite (IH _ _ Hrun p). unfold parseFlags_visit in Hvisit.
    destruct (decide (flag.String_ (flag.Value_ f) = "deprecated")) as [Hd|Hd].
    + injection Hvisit as <-.
      by rewrite filter_cons_False by (intros [? _]; done).
    + destruct (flag.Pointer (flag.Value_ f)) as [q|msg] eqn:Hq; [|discriminate].
      injection Hvisit as <-. destruct (decide (q = p)) as [->|Hne].
      * rewrite filter_cons_True by done. rewrite last_cons.
        destruct (last (filter (binds p) fs)); [done|]. by rewrite lookup_insert_eq.
      * rewrite filter_cons_False by (intros [_ ?]; congruence).
        destruct (last (filter (binds p) fs)); [done|]. by rewrite lookup_insert_ne.
Qed.

(** The index holds, under each pointer, the last flag that binds it. *)
Lemma parseFlags_lookup (fs : flag.FlagSet) (m : gmap uintptr flag.Flag) :
  parseFlags fs = Ok m → ∀ p, m !! p = last_bound fs p.
Proof.
  intros Hrun p. rewrite (VisitAll_lookup fs ∅ m Hrun p).
  destruct (last_bound fs p); [done | apply lookup_empty].
Qed.

(** [parseFlags] returns when the value of every flag that does not render
    as "deprecated" has a pointer. *)
Lemma parseFlags_returns (fs : flag.FlagSet) :
  Forall (λ f, flag.String_ (flag.Value_ f) ≠ "deprecated" →
               is_Ok (flag.Pointer (flag.Value_ f))) fs →
  is_Ok (parseFlags fs).
Proof.
  unfold parseFlags. generalize (∅ : gmap uintptr flag.Flag).
  intros acc Hfs. revert acc.
  induction Hfs as [|f fs Hf _ IH]; intros acc; [by eexists|].
  change (is_Ok (parseFlags_visit acc f ≫= VisitAll fs parseFlags_visit)).
  unfold parseFlags_visit.
  destruct (decide (flag.String_ (flag.Value_ f) = "deprecated")); [apply IH|].
  destruct (Hf ltac:(done)) as [q ->]. apply IH.
Qed.

Lemma last_bound_Some (fs : flag.FlagSet) (p : uintptr) (f : flag.Flag) :
  last_bound fs p = Some f ↔
  ∃ before after, fs = before ++ f :: after ∧ binds p f
                  ∧ Forall (λ g, ¬ binds p g) after.
Proof.
  unfold last_bound. split.
  - intros Hlast. destruct (last_filter_Some _ _ _ Hlast) as (l1 & l2 & -> & Hl2).
    exists l1, l2. split; [done|]. split; [|done].
    apply last_Some_elem_of, list_elem_of_filter in Hlast. tauto.
  - intros (l1 & l2 & -> & Hf & Hl2).
    rewrite filter_app, filter_cons_True by done.
    assert (filter (binds p) l2 = []) as ->.
    { induction Hl2; [done|]. by rewrite filter_cons_False. }
    apply last_snoc.
Qed.

Lemma last_bound_None (fs : flag.FlagSet) (p : uintptr) :
  last_bound fs p = None ↔ ∀ f, f ∈ fs → ¬ binds p f.
Proof.
  unfold last_bound. rewrite last_None. split.
  - intros Hnil f Hin Hf. by apply (filter_nil_not_elem_of _ _ _ Hnil Hf).
  - intros Hnone. induction fs as [|f fs IH]; [done|].
    rewrite filter_cons_False by (apply Hnone; left).
    apply IH. intros g Hg. apply Hnone. by right.
Qed.

Lemma last_bound_unique (fs : flag.FlagSet) (p : uintptr) (f : flag.Flag) :
  f ∈ fs → binds p f → (∀ g, g ∈ fs → binds p g → g = f) →
  last_bound fs p = Some f.
Proof.
  intros Hin Hf Huniq. destruct (last_bound fs p) as [g|] eqn:Hlast.
  - f_equal. apply Huniq.
    + by apply last_Some_elem_of, list_elem_of_filter in Hlast as [_ ?].
    + by apply last_Some_elem_of, list_elem_of_filter in Hlast as [? _].
  - by destruct (proj1 (last_bound_None fs p) Hlast f Hin).
Qed.

(** ** Flag correlation *)

Lemma lookup_map {A B} (f : A → B) (l : list A) (i : nat) :
  map f l !! i = f <$> l !! i.
Proof. revert i. induction l; intros [|i]; simpl; auto. Qed.

(** The walk with the flag closure keeps every node where it was and
    applies the closure to it. *)
Lemma Doctool_attach_subnode (m : gmap uintptr flag.Flag) (path : list nat) :
  ∀ t L, DoctoolSpec.subnode path t = Some L →
  ∃ L', DoctoolSpec.subnode path (DoctoolSpec.walk_fun (Doctool.attachFlag m) t) = Some L'
        ∧ Doctool.Name L' = Doctool.Name L
        ∧ Doctool.Pointer L' = Doctool.Pointer L
        ∧ Doctool.Flag L' = m !! Doctool.Pointer L.
Proof.
  induction path as [|i path IH]; intros t L Hsub; simpl in Hsub.
  - injection Hsub as <-. eexists. split; [reflexivity|]. by destruct t.
  - destruct (Doctool.Children t !! i) as [c|] eqn:Hc; [|done]. simpl in Hsub.
    destruct (IH c L Hsub) as (L' & HL' & ?).
    exists L'. split; [|done].
    destruct t as [name desc ty tag cs ptr fl root]; simpl in *.
    by rewrite lookup_map, Hc.
Qed.

(** C1, as stated, fails when two flags are bound to the same storage: the
    flag [server.max-size] is in the set, has the identity of the leaf and
    does not render as "deprecated", yet after the annotation the leaf
    holds [server.size], the flag visited last. *)
Lemma flag_correlation_shared_identity :
  let fs := [Sample.max_size; Sample.size_alias] in
  Sample.max_size ∈ fs
  ∧ binds (Doctool.Pointer Sample.leaf) Sample.max_size
  ∧ DoctoolSpec.subnode [0] Sample.tree = Some Sample.leaf
  ∧ (m ← parseFlags fs;
     tree' ← Doctool.walk_pure Sample.tree (Doctool.attachFlag m);
     Ok (Doctool.Flag <$> DoctoolSpec.subnode [0] tree'))
    = Ok (Some (Some Sample.size_alias))
  ∧ Sample.size_alias ≠ Sample.max_size.
Proof.
  simpl. split; [by left|]. split; [by split|]. split; [done|].
  split; [by vm_compute | discriminate].
Qed.

(** C1, amended: when the value of every flag that does not render as
    "deprecated" has a pointer, the index is built and the annotation walk
    returns; every node [L] stays at its place and afterwards holds the
    last flag, in the enumeration order of the flag set, whose identity is
    that of [L] and which does not render as "deprecated".  So it holds
    [F] when [F] is the only such flag, and no flag when there is none. *)
Theorem flag_correlation (fs : flag.FlagSet) (tree : Doctool.Node) :
  Forall (λ f, flag.String_ (flag.Value_ f) ≠ "deprecated" →
               is_Ok (flag.Pointer (flag.Value_ f))) fs →
  ∃ m tree',
    parseFlags fs = Ok m
    ∧ Doctool.walk_pure tree (Doctool.attachFlag m) = Ok tree'
    ∧ ∀ path L, DoctoolSpec.subnode path tree = Some L →
      ∃ L', DoctoolSpec.subnode path tree' = Some L'
        ∧ Doctool.Name L' = Doctool.Name L
        ∧ Doctool.Pointer L' = Doctool.Pointer L
        ∧ Doctool.Flag L' = last_bound fs (Doctool.Pointer L)
        ∧ (∀ F, F ∈ fs → binds (Doctool.Pointer L) F →
             (∀ G, G ∈ fs → binds (Doctool.Pointer L) G → G = F) →
             Doctool.Flag L' = Some F)
        ∧ ((∀ F, F ∈ fs → ¬ binds (Doctool.Pointer L) F) →
             Doctool.Flag L' = None).
Proof.
  intros Hfs. destruct (parseFlags_returns fs Hfs) as [m Hm].
  exists m, (DoctoolSpec.walk_fun (Doctool.attachFlag m) tree).
  split; [done|]. split; [apply Doctool_walk_pure_run|].
  intros path L Hsub.
  destruct (Doctool_attach_subnode m path tree L Hsub) as (L' & HL' & Hn & Hp & Hf).
  rewrite (parseFlags_lookup fs m Hm) in Hf.
  exists L'. repeat split; try done.
  - intros F HF Hb Huniq. rewrite Hf. by apply last_bound_unique.
  - intros Hnone. rewrite Hf. by apply last_bound_None.
Qed.

(** The correlation on the sample tree, for a flag set with one flag on the
    leaf and one deprecated flag. *)
Lemma flag_correlation_witness :
  let fs := [Sample.max_size; Sample.old_size] in
  ∃ m tree',
    parseFlags fs = Ok m
    ∧ Doctool.walk_pure Sample.tree (Doctool.attachFlag m) = Ok tree'
    ∧ ∀ path L, DoctoolSpec.subnode path Sample.tree = Some L →
      ∃ L', DoctoolSpec.subnode path tree' = Some L'
        ∧ Doctool.Name L' = Doctool.Name L
        ∧ Doctool.Pointer L' = Doctool.Pointer L
        ∧ Doctool.Flag L' = last_bound fs (Doctool.Pointer L)
        ∧ (∀ F, F ∈ fs → binds (Doctool.Pointer L) F →
             (∀ G, G ∈ fs → binds (Doctool.Pointer L) G → G = F) →
             Doctool.Flag L' = Some F)
        ∧ ((∀ F, F ∈ fs → ¬ binds (Doctool.Pointer L) F) →
             Doctool.Flag L' = None).
Proof.
  apply (flag_correlation [Sample.max_size; Sample.old_size] Sample.tree).
  repeat constructor; simpl; intros ?; [by eexists | done].
Defined.

(** ** The order of the calls *)

Section CallLogs.

Context {A : Type} (children : A → list A).










End CallLogs.






Lemma Part000_analyze_unfold {S} (t : Part000.Node) (fn : Part000.TransformFunc S)
  (s : S) :
  Part000.AnalyzeConfigTree t fn s =
  match fn t s with
  | Ok (b, s') =>
      Part000.analyze_fields (λ c, Part000.AnalyzeConfigTree c fn)
        (Part000.Children t) b s'
  | Panic msg => Panic msg
  end.
Proof. by destruct t. Qed.







(** ** Descriptions and flags *)

(** C6, as stated, fails for [Apply]: the leaf matches a root block, whose
    non-empty description is copied, and its identity is in the index; the
    document ends with the usage text of the flag as its description.  So
    does the document of a node that came with a description of its own. *)
Lemma Apply_overwrites_block_description :
  Part000.blockForNode Sample.ttl [Sample.ttl_block] = Some Sample.ttl_block
  ∧ blocks.Desc Sample.ttl_block ≠ ""
  ∧ ({[1%N := Sample.ttl_flag]} : gmap uintptr flag.Flag)
      !! Part000.Pointer Sample.ttl = Some Sample.ttl_flag
  ∧ Part000.ConfigBlock.Desc
      <$> Part000.Apply_node "" [Sample.ttl_block] {[1%N := Sample.ttl_flag]}
            Sample.ttl
    = Ok "Time to live."
  ∧ Part000.ConfigBlock.Desc
      <$> Part000.Apply_node "" [] {[1%N := Sample.ttl_flag]}
            (Part000.mkNode "ttl" "Entry lifetime." (Some Sample.duration_type)
               [] [] 1%N None)
    = Ok "Time to live.".
Proof. repeat split; done. Qed.

(** C6, amended: when the index holds the flag [f] under the identity [p],
    the closure of main.go sets the Flag of a node with that identity to
    [f] and leaves its description as it was, empty or not; the closure of
    [Apply] sets the flag name of the document to the name of [f] and its
    description to the usage text of [f], whatever description the node or
    a matched root block supplied. *)
Theorem flag_found (m : gmap uintptr flag.Flag) (p : uintptr) (f : flag.Flag) :
  m !! p = Some f →
  (∀ t, Doctool.Pointer t = p →
     Doctool.Flag (Doctool.attachFlag m t) = Some f
     ∧ Doctool.Desc (Doctool.attachFlag m t) = Doctool.Desc t)
  ∧ (∀ prefix bs node, Part000.Pointer node = p →
       ∃ b, Part000.Apply_node prefix bs m node = Ok b
            ∧ Part000.ConfigBlock.FlagName b = flag.Name f
            ∧ Part000.ConfigBlock.Desc b = flag.Usage f).
Proof.
  intros Hm. split.
  - intros t <-. simpl. by rewrite Hm.
  - intros prefix bs node <-. unfold Part000.Apply_node. rewrite Hm.
    destruct (Part000.Type_ node); simpl;
      (eexists; split; [reflexivity|];
       by destruct (Part000.blockForNode _ bs)).
Qed.

(** The two closures on an index that holds [cache.ttl] under address 1. *)
Lemma flag_found_witness :
  (∀ t, Doctool.Pointer t = 1%N →
     Doctool.Flag (Doctool.attachFlag {[1%N := Sample.ttl_flag]} t)
     = Some Sample.ttl_flag
     ∧ Doctool.Desc (Doctool.attachFlag {[1%N := Sample.ttl_flag]} t)
       = Doctool.Desc t)
  ∧ (∀ prefix bs node, Part000.Pointer node = 1%N →
       ∃ b, Part000.Apply_node prefix bs {[1%N := Sample.ttl_flag]} node = Ok b
            ∧ Part000.ConfigBlock.FlagName b = flag.Name Sample.ttl_flag
            ∧ Part000.ConfigBlock.Desc b = flag.Usage Sample.ttl_flag).
Proof.
  apply (flag_found {[1%N := Sample.ttl_flag]} 1%N Sample.ttl_flag).
  reflexivity.
Defined.

(** ** Root blocks *)

(** [blockForNode] returns the first entry of the registry, in registry
    order, whose type is the type of the node. *)
Lemma blockForNode_first (n : Part000.Node) (bs : list blocks.Block)
  (bb : blocks.Block) :
  Part000.blockForNode n bs = Some bb ↔
  ∃ before after, bs = before ++ bb :: after
    ∧ Part000.Type_ n = blocks.Type_ bb
    ∧ Forall (λ b, Part000.Type_ n ≠ blocks.Type_ b) before.
Proof.
  induction bs as [|b bs IH]; simpl.
  - split; [done|]. intros (l1 & l2 & Heq & _). by destruct l1.
  - destruct (decide (Part000.Type_ n = blocks.Type_ b)) as [Hb|Hb].
    + split.
      * intros [= <-]. by exists [], bs.
      * intros ([|b' l1] & l2 & Heq & Hty & Hl1); simplify_eq/=; [done|].
        by inversion Hl1.
    + rewrite IH. split.
      * intros (l1 & l2 & -> & Hty & Hl1). exists (b :: l1), l2.
        split; [done|]. split; [done|]. by constructor.
      * intros ([|b' l1] & l2 & Heq & Hty & Hl1); simplify_eq/=.
        inversion Hl1; subst. by exists l1, l2.
Qed.

(** Without a flag under the identity of the node, the document [Apply]
    builds for a node that matches carries the description of that first
    entry and is marked as a root block. *)
Lemma Apply_node_first_block (prefix : string) (bs : list blocks.Block)
  (m : gmap uintptr flag.Flag) (node : Part000.Node) (bb : blocks.Block) :
  Part000.blockForNode node bs = Some bb →
  m !! Part000.Pointer node = None →
  ∃ b, Part000.Apply_node prefix bs m node = Ok b
       ∧ Part000.ConfigBlock.IsRoot b = true
       ∧ Part000.ConfigBlock.Desc b = blocks.Desc bb.
Proof.
  intros Hbb Hm. unfold Part000.Apply_node. rewrite Hbb, Hm.
  destruct (Part000.Type_ node); simpl; by eexists.
Qed.

(** The loop of [ApplyRootBlocks] does not stop at a match: on a node with
    a type it returns the node marked with the description of the last
    entry that matches, and the node itself when no entry matches. *)
Lemma rootBlocks_loop_last (bs : list blocks.Block) :
  ∀ node out ty, Doctool.Type_ node = Some ty →
  ∃ out',
    Doctool.rootBlocks_loop bs node out
    = Ok (match last (filter (loop_matches (Some ty)) bs) with
          | Some b => Doctool.set_Desc (Doctool.set_IsRoot node true) (blocks.Desc b)
          | None => node
          end, out').
Proof.
  induction bs as [|b bs IH]; intros node out ty Hty; simpl.
  - by eexists.
  - rewrite Hty.
    destruct (decide (Some ty = reflect.TypeOf_Type (blocks.Type_ b))) as [Hb|Hb].
    + rewrite filter_cons_True by done. rewrite last_cons. rewrite <- Hb.
      rewrite decide_True by done. simpl.
      edestruct (IH (Doctool.set_Desc (Doctool.set_IsRoot node true) (blocks.Desc b)))
        as [out' ->]; [by destruct node|].
      eexists. f_equal. f_equal.
      destruct (last (filter (loop_matches (Some ty)) bs)); by destruct node.
    + rewrite filter_cons_False by done. rewrite decide_False by done.
      by apply IH.
Qed.

(** What the loop compares with is never the type of the block: it is the
    descriptor of [*reflect.rtype] for every block that has a type. *)
Lemma loop_matches_rtype_pointer (ty : reflect.rtype) (b : blocks.Block) :
  loop_matches (Some ty) b ↔
  ty = reflect.rtype_pointer ∧ blocks.Type_ b ≠ None.
Proof.
  unfold loop_matches. destruct (blocks.Type_ b) as [r|]; simpl; split.
  - by intros [= ->].
  - by intros [-> _].
  - done.
  - by intros [_ ?].
Qed.

(** The loop leaves alone, and prints nothing for, every node whose type is
    present and is not [*reflect.rtype], whatever the registry. *)
Lemma rootBlocks_loop_no_match (bs : list blocks.Block) (node : Doctool.Node)
  (out : string) (ty : reflect.rtype) :
  Doctool.Type_ node = Some ty → ty ≠ reflect.rtype_pointer →
  Doctool.rootBlocks_loop bs node out = Ok (node, out).
Proof.
  intros Hty Hne. induction bs as [|b bs IH]; simpl; [done|].
  rewrite Hty. rewrite decide_False; [done|].
  intros Hb. by apply (loop_matches_rtype_pointer ty b) in Hb as [? _].
Qed.

(** The registry of blocks.go lists every type once and no entry without a
    type, so on it the first match of [blockForNode] is the only match. *)
Lemma Blocks_types_distinct :
  NoDup (blocks.Type_ <$> blocks.Blocks) ∧ None ∉ (blocks.Type_ <$> blocks.Blocks).
Proof.
  split; apply (bool_decide_unpack _); by vm_compute.
Qed.

(** C2, at the failing input: a node of type [common.Config] and a registry
    that lists this type twice.  The block matcher of main.go returns the
    node unmarked, because it compares the node type with the type of the
    descriptor value; where its comparison does succeed (a node whose type
    is [*reflect.rtype]) it keeps the description of the second entry.  On
    the same registry [blockForNode] and [Apply] of part_000 take the first
    entry. *)
Theorem ApplyRootBlocks_listed_twice :
  fst <$> Doctool.ApplyRootBlocks Sample.common_node
            (Sample.twice Sample.common_type) ""
  = Ok Sample.common_node
  ∧ (λ r, (Doctool.IsRoot r.1, Doctool.Desc r.1))
      <$> Doctool.ApplyRootBlocks Sample.rtype_node
            (Sample.twice reflect.rtype_pointer) ""
    = Ok (true, "Second.")
  ∧ blocks.Desc <$> Part000.blockForNode Sample.common_node0
                      (Sample.twice Sample.common_type)
    = Some "First."
  ∧ (λ b, (Part000.ConfigBlock.IsRoot b, Part000.ConfigBlock.Desc b))
      <$> Part000.Apply_node "" (Sample.twice Sample.common_type) ∅
            Sample.common_node0
    = Ok (true, "First.").
Proof. repeat split. Qed.

(** ** The text tree *)

Lemma append_nil_r (s : string) : s +:+ "" = s.
Proof. induction s as [|a s IH]; [done|]. change (String a (s +:+ "") = String a s). by f_equal. Qed.

Lemma append_assoc (s t u : string) : (s +:+ t) +:+ u = s +:+ t +:+ u.
Proof.
  induction s as [|a s IH]; [done|].
  change (String a ((s +:+ t) +:+ u) = String a (s +:+ t +:+ u)). by f_equal.
Qed.

(** [indent] writes two spaces per level. *)
Lemma indent_spaces (i : Z) : indent i = spaces (2 * Z.to_nat i).
Proof.
  unfold indent. generalize (Z.to_nat i). intros n.
  assert (∀ sb, indent_loop n sb = sb +:+ spaces (2 * n)) as ->; [|done].
  induction n as [|n IH]; intros sb; simpl.
  - by rewrite append_nil_r.
  - rewrite IH, append_assoc. by replace (n + S (n + 0)) with (S (2 * n)) by lia.
Qed.

(** One level deeper is one more, below the largest [int]. *)
Lemma indent_next_level (i : Z) :
  (0 ≤ i < 2 ^ 63 - 1)%Z →
  indent (int_add i 1) = "  " +:+ indent i.
Proof.
  intros Hi. rewrite !indent_spaces. unfold int_add, int_wrap.
  replace (((i + 1 + 2 ^ 63) `mod` 2 ^ 64 - 2 ^ 63))%Z with (i + 1)%Z.
  - by replace (2 * Z.to_nat (i + 1)) with (S (S (2 * Z.to_nat i))) by lia.
  - rewrite Z.mod_small; lia.
Qed.

(** The loop over the children appends their lines in order. *)
Lemma print_fields_lines {A} (print : A → Z → result string) (g : A → string)
  (i : Z) (cs : list A) :
  Forall (λ c, print c (int_add i 1) = Ok (g c)) cs →
  ∀ sb, print_fields print i cs sb = Ok (sb +:+ field_lines i (map g cs)).
Proof.
  induction 1 as [|c cs Hc _ IH]; intros sb; simpl.
  - by rewrite append_nil_r.
  - rewrite Hc. simpl. rewrite IH. by rewrite !append_assoc.
Qed.

Lemma Doctool_print_unfold (t : Doctool.Node) (i : Z) :
  Doctool.PrintConfigTree t i =
  leaf ← Doctool.leaf_suffix t;
  if bool_decide (0 < length (Doctool.Children t)) then
    sb ← print_fields Doctool.PrintConfigTree i (Doctool.Children t)
           ((DoctoolSpec.heading t +:+ leaf) +:+ " {" +:+ nl);
    mret (sb +:+ (indent i +:+ "}"))
  else mret (DoctoolSpec.heading t +:+ leaf).
Proof. by destruct t. Qed.

(** The leaf part is written exactly for a node with a type and without
    children; the classifier is then called on a type that is present. *)
Lemma Doctool_leaf_suffix (t : Doctool.Node) :
  Doctool.leaf_suffix t =
  Ok match Doctool.Type_ t, Doctool.Children t with
     | Some ty, [] => ": " +:+ Doctool.getType_switch ty +:+ flag_suffix (Doctool.Flag t)
     | _, _ => ""
     end.
Proof.
  unfold Doctool.leaf_suffix.
  destruct (Doctool.Type_ t) as [ty|], (Doctool.Children t) as [|c cs]; try done.
Qed.

(** The renderer of main.go never panics and prints [render]. *)
Lemma Doctool_print_render (t : Doctool.Node) :
  ∀ i, Doctool.PrintConfigTree t i = Ok (DoctoolSpec.render t i).
Proof.
  induction t as [t IH] using Doctool_Node_ind. intros i.
  rewrite Doctool_print_unfold, Doctool_leaf_suffix.
  destruct t as [name desc ty tag [|c cs] ptr fl root].
  - simpl. destruct ty; simpl; [done | by rewrite append_nil_r].
  - assert (Forall (λ c, Doctool.PrintConfigTree c (int_add i 1)
                         = Ok (DoctoolSpec.render c (int_add i 1))) (c :: cs))
      as Hcs by (eapply Forall_impl; [exact IH | auto]).
    cbn [Doctool.Type_ Doctool.Children]. destruct ty; cbn [mbind result_bind];
      rewrite (print_fields_lines _ _ _ _ Hcs); cbn [mbind result_bind mret result_ret];
      rewrite append_nil_r, !append_assoc; reflexivity.
Qed.

Lemma Part001_print_unfold (t : Part001.ConfigTree) (i : Z) :
  Part001.PrintConfigTree t i =
  leaf ← Part001.leaf_suffix t;
  if bool_decide (0 < length (Part001.Fields t)) then
    sb ← print_fields Part001.PrintConfigTree i (Part001.Fields t)
           ((Part001.Name t +:+ leaf) +:+ " {" +:+ nl);
    mret (sb +:+ (indent i +:+ "}"))
  else mret (Part001.Name t +:+ leaf).
Proof. by destruct t. Qed.

Lemma Part001_leaf_suffix (t : Part001.ConfigTree) :
  Part001.leaf_suffix t =
  Ok match Part001.Type_ t, Part001.Fields t with
     | Some ty, [] => ": " +:+ Part001.getType_switch ty +:+ flag_suffix (Part001.Flag t)
     | _, _ => ""
     end.
Proof.
  unfold Part001.leaf_suffix.
  destruct (Part001.Type_ t) as [ty|], (Part001.Fields t) as [|c cs]; try done.
Qed.

(** The renderer of part_001 never panics and prints [render]. *)
Lemma Part001_print_render (t : Part001.ConfigTree) :
  ∀ i, Part001.PrintConfigTree t i = Ok (Part001Spec.render t i).
Proof.
  induction t as [t IH] using Part001_ConfigTree_ind. intros i.
  rewrite Part001_print_unfold, Part001_leaf_suffix.
  destruct t as [name tag ty [|c cs] ptr fl].
  - simpl. destruct ty; simpl; [done | by rewrite append_nil_r].
  - assert (Forall (λ c, Part001.PrintConfigTree c (int_add i 1)
                         = Ok (Part001Spec.render c (int_add i 1))) (c :: cs))
      as Hcs by (eapply Forall_impl; [exact IH | auto]).
    cbn [Part001.Type_ Part001.Fields]. destruct ty; cbn [mbind result_bind];
      rewrite (print_fields_lines _ _ _ _ Hcs); cbn [mbind result_bind mret result_ret];
      rewrite append_nil_r, !append_assoc; reflexivity.
Qed.

Lemma Part000_print_unfold (t : Part000.Node) (i : Z) :
  Part000.PrintConfigTree t i =
  leaf ← Part000.leaf_suffix t;
  if bool_decide (0 < length (Part000.Children t)) then
    sb ← print_fields Part000.PrintConfigTree i (Part000.Children t)
           ((Part000.Name t +:+ leaf) +:+ " {" +:+ nl);
    mret (sb +:+ (indent i +:+ "}"))
  else mret (Part000.Name t +:+ leaf).
Proof. by destruct t. Qed.

Lemma Part000_leaf_suffix (t : Part000.Node) :
  Part000.leaf_suffix t =
  Ok match Part000.Type_ t, Part000.Children t with
     | Some ty, [] => ": " +:+ Part000.getType_switch ty +:+ flag_suffix (Part000.Flag t)
     | _, _ => ""
     end.
Proof.
  unfold Part000.leaf_suffix.
  destruct (Part000.Type_ t) as [ty|], (Part000.Children t) as [|c cs]; try done.
Qed.

(** The renderer of part_000 never panics and prints [render]. *)
Lemma Part000_print_render (t : Part000.Node) :
  ∀ i, Part000.PrintConfigTree t i = Ok (Part000Spec.render t i).
Proof.
  induction t as [t IH] using Part000_Node_ind. intros i.
  rewrite Part000_print_unfold, Part000_leaf_suffix.
  destruct t as [name desc ty tag [|c cs] ptr fl].
  - simpl. destruct ty; simpl; [done | by rewrite append_nil_r].
  - assert (Forall (λ c, Part000.PrintConfigTree c (int_add i 1)
                         = Ok (Part000Spec.render c (int_add i 1))) (c :: cs))
      as Hcs by (eapply Forall_impl; [exact IH | auto]).
    cbn [Part000.Type_ Part000.Children]. destruct ty; cbn [mbind result_bind];
      rewrite (print_fields_lines _ _ _ _ Hcs); cbn [mbind result_bind mret result_ret];
      rewrite append_nil_r, !append_assoc; reflexivity.
Qed.

(** C5, as stated, fails in each revision: a node built for a field of the
    struct type [time.Time], with a type and without children, is printed
    in the leaf form, with its type label. *)
Lemma empty_struct_printed_as_leaf :
  reflect.Kind_of Sample.time_type = reflect.Struct
  ∧ Part000.Children Sample.start0 = []
  ∧ Part000.PrintConfigTree Sample.start0 0 = Ok "start: time.Time"
  ∧ Part001.PrintConfigTree Sample.start1 0 = Ok "start: Time"
  ∧ Doctool.PrintConfigTree Sample.start 0 = Ok "start (false): Time".
Proof. repeat split. Qed.

(** C5, amended: a node with a struct type and without children is printed
    in the leaf form by each revision: its name (in main.go followed by the
    root marker), a colon and a space, the label of the struct type, and
    the flag suffix; the type label is left out only for a node that has at
    least one child, which is printed as a branch. *)
Theorem empty_struct_leaf_form (pkg sname name desc : string) (tag : list string)
  (ptr : uintptr) (fl : option flag.Flag) (root : bool) (i : Z) :
  let ty := reflect.Plain reflect.Struct pkg sname in
  Doctool.PrintConfigTree (Doctool.mkNode name desc (Some ty) tag [] ptr fl root) i
  = Ok (name +:+ " (" +:+ fmt_bool root +:+ ")" +:+ ": " +:+ sname +:+ flag_suffix fl)
  ∧ Part000.PrintConfigTree (Part000.mkNode name desc (Some ty) tag [] ptr fl) i
    = Ok (name +:+ ": " +:+ (pkg +:+ "." +:+ sname) +:+ flag_suffix fl)
  ∧ Part001.PrintConfigTree (Part001.mkConfigTree name tag (Some ty) [] ptr fl) i
    = Ok (name +:+ ": " +:+ sname +:+ flag_suffix fl)
  ∧ (∀ c cs,
       Doctool.PrintConfigTree
         (Doctool.mkNode name desc (Some ty) tag (c :: cs) ptr fl root) i
       = Ok (name +:+ " (" +:+ fmt_bool root +:+ ")" +:+ " {" +:+ nl
             +:+ field_lines i
                   (map (λ c, DoctoolSpec.render c (int_add i 1)) (c :: cs))
             +:+ indent i +:+ "}"))
  ∧ (∀ c cs,
       Part000.PrintConfigTree
         (Part000.mkNode name desc (Some ty) tag (c :: cs) ptr fl) i
       = Ok (name +:+ " {" +:+ nl
             +:+ field_lines i
                   (map (λ c, Part000Spec.render c (int_add i 1)) (c :: cs))
             +:+ indent i +:+ "}"))
  ∧ (∀ c cs,
       Part001.PrintConfigTree
         (Part001.mkConfigTree name tag (Some ty) (c :: cs) ptr fl) i
       = Ok (name +:+ " {" +:+ nl
             +:+ field_lines i
                   (map (λ c, Part001Spec.render c (int_add i 1)) (c :: cs))
             +:+ indent i +:+ "}")).
Proof.
  intros ty. split; [|split; [|split; [|split; [|split]]]].
  - rewrite Doctool_print_render. simpl. unfold DoctoolSpec.heading. simpl.
    by rewrite !append_assoc.
  - reflexivity.
  - reflexivity.
  - intros c cs. rewrite Doctool_print_render.
    cbn [DoctoolSpec.render Doctool.Children]. unfold DoctoolSpec.heading.
    cbn [Doctool.Name Doctool.IsRoot]. by rewrite !append_assoc.
  - intros c cs. by rewrite Part000_print_render.
  - intros c cs. by rewrite Part001_print_render.
Qed.

(** C8, as stated, fails for main.go: between the name and the colon a leaf
    carries the root marker. *)
Lemma leaf_carries_root_marker :
  Doctool.PrintConfigTree Sample.leaf 0 = Ok "max_size (false): int"
  ∧ Doctool.PrintConfigTree Sample.leaf 0
    ≠ Ok (Doctool.Name Sample.leaf +:+ ": " +:+ "int").
Proof. split; [reflexivity | discriminate]. Qed.

(** C8, amended: part_000 and part_001 print a leaf as its name, a colon
    and a space, its type label, and the suffix " -name=default" exactly
    when a flag is bound; main.go prints " (true)" or " (false)", the root
    marker of the node, between the name and the colon.  [indent] writes
    two spaces per level, and a branch prints each child one level deeper
    on a line of its own, before the closing brace at its own level. *)
Theorem leaf_form_and_indentation :
  (∀ name desc ty tag ptr fl root i,
     Doctool.PrintConfigTree (Doctool.mkNode name desc (Some ty) tag [] ptr fl root) i
     = Ok (name +:+ " (" +:+ fmt_bool root +:+ ")" +:+ ": "
           +:+ Doctool.getType_switch ty +:+ flag_suffix fl))
  ∧ (∀ name desc ty tag ptr fl i,
       Part000.PrintConfigTree (Part000.mkNode name desc (Some ty) tag [] ptr fl) i
       = Ok (name +:+ ": " +:+ Part000.getType_switch ty +:+ flag_suffix fl))
  ∧ (∀ name ty tag ptr fl i,
       Part001.PrintConfigTree (Part001.mkConfigTree name tag (Some ty) [] ptr fl) i
       = Ok (name +:+ ": " +:+ Part001.getType_switch ty +:+ flag_suffix fl))
  ∧ (∀ fl, flag_suffix fl =
           match fl with
           | Some f => " -" +:+ flag.Name f +:+ "=" +:+ flag.DefValue f
           | None => ""
           end)
  ∧ (∀ i, indent i = spaces (2 * Z.to_nat i))
  ∧ (∀ t i, Doctool.PrintConfigTree t i = Ok (DoctoolSpec.render t i))
  ∧ (∀ t i, Part000.PrintConfigTree t i = Ok (Part000Spec.render t i))
  ∧ (∀ t i, Part001.PrintConfigTree t i = Ok (Part001Spec.render t i))
  ∧ (∀ name desc ty tag c cs ptr fl root i,
       Doctool.PrintConfigTree (Doctool.mkNode name desc ty tag (c :: cs) ptr fl root) i
       = Ok (name +:+ " (" +:+ fmt_bool root +:+ ")" +:+ " {" +:+ nl
             +:+ field_lines i
                   (map (λ c, DoctoolSpec.render c (int_add i 1)) (c :: cs))
             +:+ indent i +:+ "}"))
  ∧ (∀ name tag ty c cs ptr fl i,
       Part001.PrintConfigTree (Part001.mkConfigTree name tag ty (c :: cs) ptr fl) i
       = Ok (name +:+ " {" +:+ nl
             +:+ field_lines i
                   (map (λ c, Part001Spec.render c (int_add i 1)) (c :: cs))
             +:+ indent i +:+ "}")).
Proof.
  repeat split; intros.
  - rewrite Doctool_print_render. simpl. unfold DoctoolSpec.heading. simpl.
    by rewrite !append_assoc.
  - apply indent_spaces.
  - apply Doctool_print_render.
  - apply Part000_print_render.
  - apply Part001_print_render.
  - rewrite Doctool_print_render.
    cbn [DoctoolSpec.render Doctool.Children]. unfold DoctoolSpec.heading.
    cbn [Doctool.Name Doctool.IsRoot]. by rewrite !append_assoc.
  - by rewrite Part001_print_render.
Qed.

(** * Further properties of the code *)

(** ** Tag Parser *)

(** [strings.Split] on a comma: there is a first piece, the pieces hold no
    comma, and written out with commas between them they give the string
    back. *)
Lemma Split_comma (s : string) :
  ∃ piece pieces,
    strings.Split s ","%char = piece :: pieces
    ∧ join_tag piece pieces = s
    ∧ occurs ","%char piece = false
    ∧ Forall (λ m, occurs ","%char m = false) pieces.
Proof.
  induction s as [|c s (piece & pieces & HS & Hjoin & Hp & Hps)].
  - exists "", []. by repeat split.
  - simpl. rewrite HS. destruct (Ascii.eqb_spec c ","%char) as [->|Hc].
    + exists "", (piece :: pieces). split; [done|]. split; [|split; [done|by constructor]].
      unfold join_tag in *. simpl. by rewrite Hjoin.
    + exists (String c piece), pieces. split; [done|]. split; [|split; [|done]].
      * unfold join_tag in *.
        change (String c (piece +:+ foldr (λ m rest, "," +:+ m +:+ rest) "" pieces)
                = String c s). by rewrite Hjoin.
      * simpl. rewrite Hp. by apply Ascii.eqb_neq in Hc as ->.
Qed.

Lemma parseTag_Split (tag : string) (piece : string) (pieces : list string) :
  strings.Split tag ","%char = piece :: pieces → parseTag tag = (piece, pieces).
Proof. unfold parseTag. intros ->. by destruct pieces. Qed.

(** [parseTag] loses nothing: the name and the modifiers, written out with
    commas between them, are the tag; neither the name nor a modifier
    holds a comma. *)
Theorem parseTag_round_trip (tag : string) :
  join_tag (parseTag tag).1 (parseTag tag).2 = tag
  ∧ occurs ","%char (parseTag tag).1 = false
  ∧ Forall (λ m, occurs ","%char m = false) (parseTag tag).2.
Proof.
  destruct (Split_comma tag) as (piece & pieces & HS & Hjoin & Hp & Hps).
  by rewrite (parseTag_Split _ _ _ HS).
Qed.

(** The test [name == "" || name == "-"] by which [ParseTree] skips a field
    holds exactly for the tags that are empty, start with a comma (such as
    [,inline]), are [-], or start with [-,]. *)
Theorem parseTag_skipped (tag : string) :
  ((parseTag tag).1 = "" ∨ (parseTag tag).1 = "-")
  ↔ (tag = "" ∨ (∃ rest, tag = "," +:+ rest)
     ∨ tag = "-" ∨ (∃ rest, tag = "-," +:+ rest)).
Proof.
  split.
  - destruct (Split_comma tag) as (piece & pieces & HS & Hjoin & _).
    rewrite (parseTag_Split _ _ _ HS). simpl. unfold join_tag in Hjoin.
    intros [-> | ->]; destruct pieces as [|m pieces]; simpl in Hjoin; subst tag.
    + by left.
    + right; left. by eexists.
    + right; right; left. done.
    + right; right; right. by eexists.
  - intros [-> | [[rest ->] | [-> | [rest ->]]]].
    + by left.
    + left. change ("," +:+ rest) with (String ","%char rest).
      destruct (Split_comma rest) as (piece & pieces & HS & _).
      unfold parseTag. simpl. by rewrite HS.
    + by right.
    + right. change ("-," +:+ rest) with (String "-"%char (String ","%char rest)).
      destruct (Split_comma rest) as (piece & pieces & HS & _).
      unfold parseTag. simpl. by rewrite HS.
Qed.

(** ** Tree Builder *)

Lemma Value_nested_ind (P : reflect.Value → Prop) :
  (∀ addr visible,
     Forall (λ fv : reflect.StructField * reflect.Value, P fv.2) visible →
     P (reflect.mkValue addr visible)) →
  (∀ msg, P (reflect.no_field msg)) →
  ∀ v, P v.
Proof.
  intros step none. fix rec 1. intros [addr visible|msg]; [|apply none].
  apply step.
  induction visible as [|[field fv] visible IH]; constructor; [apply rec | exact IH].
Qed.

(** One round of the loop of [ParseTree]. *)
Lemma parse_fields_cons (parse : Doctool.Node → reflect.Value → result Doctool.Node)
  (field : reflect.StructField) (fv : reflect.Value)
  (fs : list (reflect.StructField * reflect.Value)) (t : Doctool.Node) :
  Doctool.parse_fields parse ((field, fv) :: fs) t =
  if decide (documented (field, fv)) then
    match fv with
    | reflect.no_field msg => Panic msg
    | reflect.mkValue _ _ =>
        let node := Doctool.mkNode (parseTag (reflect.yaml field)).1 ""
                      (Some (reflect.field_Type field))
                      (parseTag (reflect.yaml field)).2 [] 0%N None false in
        if decide (reflect.Kind_of (reflect.field_Type field) = reflect.Struct)
        then
          child ← parse node fv;
          Doctool.parse_fields parse fs
            (Doctool.set_Children t (Doctool.Children t ++ [child]))
        else
          p ← reflect.Addr_Pointer fv;
          Doctool.parse_fields parse fs
            (Doctool.set_Children t
               (Doctool.Children t ++ [Doctool.set_Pointer node p]))
    end
  else Doctool.parse_fields parse fs t.
Proof.
  destruct (decide (documented (field, fv))) as [Hd|Hd];
    unfold documented in Hd; simpl in *;
    destruct (parseTag (reflect.yaml field)) as [name tags]; simpl in *;
    destruct (decide (name = "" ∨ name = "-")) as [Hskip|Hdoc].
  - destruct Hd as [? ?]. by destruct Hskip.
  - destruct fv as [addr visible|msg]; [|done].
    by destruct (reflect.Kind_of (reflect.field_Type field)).
  - done.
  - destruct Hd. split; intros ->; apply Hdoc; auto.
Qed.

(** The loop only appends children to the node it is given. *)
Lemma parse_fields_appends (parse : Doctool.Node → reflect.Value → result Doctool.Node)
  (fs : list (reflect.StructField * reflect.Value)) :
  ∀ t t', Doctool.parse_fields parse fs t = Ok t' →
  ∃ more, t' = Doctool.set_Children t (Doctool.Children t ++ more).
Proof.
  induction fs as [|[field fv] fs IH]; intros t t' Hrun.
  - injection Hrun as <-. exists []. rewrite app_nil_r. by destruct t.
  - rewrite parse_fields_cons in Hrun.
    assert (∀ child, Doctool.parse_fields parse fs
              (Doctool.set_Children t (Doctool.Children t ++ [child])) = Ok t' →
            ∃ more, t' = Doctool.set_Children t (Doctool.Children t ++ more))
      as Hstep.
    { intros child Hrest. destruct (IH _ _ Hrest) as [more ->].
      exists (child :: more). destruct t; simpl. by rewrite <- app_assoc. }
    destruct (decide (documented (field, fv))); [|by apply IH].
    destruct fv as [addr visible|msg]; [|done]. simpl in Hrun.
    destruct (decide (reflect.Kind_of (reflect.field_Type field) = reflect.Struct)).
    + destruct (parse _ (reflect.mkValue addr visible)) as [child|]; [|done].
      by eapply Hstep.
    + destruct addr as [p|]; [|done]. by eapply Hstep.
Qed.

(** The children the loop appends: one per documented field, in the order
    of the fields. *)
Lemma parse_fields_built (fs : list (reflect.StructField * reflect.Value)) :
  ∀ t t', Doctool.parse_fields Doctool.ParseTree fs t = Ok t' →
  ∃ new, t' = Doctool.set_Children t (Doctool.Children t ++ new)
         ∧ Forall2 DoctoolSpec.built_from new (filter documented fs).
Proof.
  induction fs as [|[field fv] fs IH]; intros t t' Hrun.
  - injection Hrun as <-. exists []. rewrite app_nil_r. split; [by destruct t|].
    constructor.
  - rewrite parse_fields_cons in Hrun.
    destruct (decide (documented (field, fv))) as [Hdoc|Hskip].
    2:{ rewrite filter_cons_False by done. by apply IH. }
    rewrite filter_cons_True by done.
    destruct fv as [addr visible|msg]; [|done]. set (fv := reflect.mkValue addr visible) in *.
    simpl in Hrun.
    assert (∀ child, DoctoolSpec.built_from child (field, fv) →
              Doctool.parse_fields Doctool.ParseTree fs
                (Doctool.set_Children t (Doctool.Children t ++ [child])) = Ok t' →
            ∃ new, t' = Doctool.set_Children t (Doctool.Children t ++ new)
                   ∧ Forall2 DoctoolSpec.built_from new ((field, fv) :: filter documented fs))
      as Hstep.
    { intros child Hchild Hrest. destruct (IH _ _ Hrest) as (new & -> & Hnew).
      exists (child :: new). split; [|by constructor].
      destruct t; simpl. by rewrite <- app_assoc. }
    destruct (decide (reflect.Kind_of (reflect.field_Type field) = reflect.Struct))
      as [Hk|Hk].
    + destruct (Doctool.parse_fields _ visible _) as [child|] eqn:Hchild; [|done].
      apply (Hstep child); [|done].
      pose proof Hchild as Hsame.
      apply parse_fields_appends in Hchild as [more ->].
      unfold DoctoolSpec.built_from. simpl. rewrite decide_True by done.
      repeat split. exact Hsame.
    + destruct addr as [p|]; [|done].
      eapply Hstep; [|exact Hrun].
      unfold DoctoolSpec.built_from. simpl. rewrite decide_False by done.
      by repeat split.
Qed.

(** [ParseTree] changes nothing of the node it is given but its children:
    it appends one child per visible field that is not skipped, in the order
    of the fields, with the name and modifiers of the tag and the type of
    the field; a struct field is parsed recursively and gets no address,
    any other field gets the address of its value and no children. *)
Theorem ParseTree_children (t t' : Doctool.Node) (v : reflect.Value) :
  Doctool.ParseTree t v = Ok t' →
  ∃ new, t' = Doctool.set_Children t (Doctool.Children t ++ new)
         ∧ Forall2 DoctoolSpec.built_from new
             (filter documented (reflect.VisibleFields v)).
Proof. destruct v as [addr visible|msg]; [apply parse_fields_built | done]. Qed.

Lemma ParseTree_children_witness :
  ∃ new,
    Doctool.set_Children Doctool.Tree [Sample.start]
    = Doctool.set_Children Doctool.Tree (Doctool.Children Doctool.Tree ++ new)
    ∧ Forall2 DoctoolSpec.built_from new
        (filter documented (reflect.VisibleFields Sample.with_start)).
Proof.
  apply (ParseTree_children Doctool.Tree _ Sample.with_start). reflexivity.
Defined.

Lemma parse_fields_returns (parse : Doctool.Node → reflect.Value → result Doctool.Node)
  (fs : list (reflect.StructField * reflect.Value)) :
  Forall (λ fv : reflect.StructField * reflect.Value,
            is_Ok (reflect.Addr_Pointer fv.2) ∧ ∀ t, is_Ok (parse t fv.2)) fs →
  ∀ t, is_Ok (Doctool.parse_fields parse fs t).
Proof.
  induction 1 as [|[field fv] fs [[p Hp] Hfv] _ IH]; intros t; [by eexists|].
  rewrite parse_fields_cons. destruct (decide (documented (field, fv))); [|apply IH].
  destruct fv as [addr visible|msg]; [|done]. simpl in *.
  destruct (decide (reflect.Kind_of (reflect.field_Type field) = reflect.Struct)).
  - edestruct Hfv as [child ->]. apply IH.
  - rewrite Hp. apply IH.
Qed.

(** [ParseTree] returns on a struct value all of whose fields, at every
    depth, can be reached by [FieldByIndex] (none is promoted through an
    embedded pointer that is nil) and are addressable (as those of a
    configuration reached through a pointer are), for every node it is
    started from. *)
Theorem ParseTree_addressable (v : reflect.Value) :
  addressable v → ∀ t, is_Ok (Doctool.ParseTree t v).
Proof.
  induction v as [addr visible IH|msg] using Value_nested_ind;
    [|by inversion 1].
  intros Hv t. inversion Hv as [p visible' Hvisible]; subst. simpl.
  apply parse_fields_returns. clear Hv.
  eapply Forall_impl; [apply Forall_and; split; [exact IH | exact Hvisible]|].
  intros [field fv] [IHfv Hfv]; simpl in *.
  split; [inversion Hfv; by eexists | by apply IHfv].
Qed.

Lemma ParseTree_addressable_witness :
  is_Ok (Doctool.ParseTree Doctool.Tree Sample.three_fields).
Proof.
  apply (ParseTree_addressable Sample.three_fields).
  repeat constructor.
Defined.

(** [ParseTree] panics when a visible field that is documented and is not a
    struct has a value that is not addressable (the configuration was
    passed by value), wherever the field stands among the fields. *)
Theorem ParseTree_not_addressable (t : Doctool.Node) (v : reflect.Value)
  (field : reflect.StructField) (fv : reflect.Value) (msg : string) :
  (field, fv) ∈ reflect.VisibleFields v →
  documented (field, fv) →
  reflect.Kind_of (reflect.field_Type field) ≠ reflect.Struct →
  reflect.Addr_Pointer fv = Panic msg →
  ¬ is_Ok (Doctool.ParseTree t v).
Proof.
  destruct v as [addr visible|none]; simpl; [|by inversion 1].
  intros Hin Hdoc Hk Hp. revert t.
  induction visible as [|[field' fv'] fs IH]; intros t; [by inversion Hin|].
  rewrite parse_fields_cons.
  apply elem_of_cons in Hin as [[= <- <-]|Hin].
  - rewrite decide_True by done.
    destruct fv as [addr' visible'|none]; [|by intros [? ?]].
    simpl. rewrite decide_False by done.
    simpl in Hp. rewrite Hp. by intros [? ?].
  - destruct (decide (documented (field', fv'))); [|by apply IH].
    destruct fv' as [addr' visible'|none]; [|by intros [? ?]]. simpl.
    destruct (decide (reflect.Kind_of (reflect.field_Type field') = reflect.Struct)).
    + destruct (Doctool.parse_fields _ visible' _); [by apply IH | by intros [? ?]].
    + destruct addr'; [by apply IH | by intros [? ?]].
Qed.

Lemma ParseTree_not_addressable_witness :
  ¬ is_Ok (Doctool.ParseTree Doctool.Tree
             (reflect.mkValue (Panic "reflect.Value.Addr of unaddressable value")
                [(reflect.mkStructField "name1" Sample.int_type,
                  reflect.mkValue
                    (Panic "reflect.Value.Addr of unaddressable value") [])])).
Proof.
  eapply (ParseTree_not_addressable _ _ (reflect.mkStructField "name1" Sample.int_type)).
  - by left.
  - by split.
  - done.
  - reflexivity.
Defined.

(** [ParseTree] panics when [FieldByIndex] cannot reach a documented field,
    a field promoted through an embedded pointer that is nil, whatever the
    kind of the field and wherever it stands among the fields. *)
Theorem ParseTree_unreachable_field (t : Doctool.Node) (v : reflect.Value)
  (field : reflect.StructField) (msg : string) :
  (field, reflect.no_field msg) ∈ reflect.VisibleFields v →
  documented (field, reflect.no_field msg) →
  ¬ is_Ok (Doctool.ParseTree t v).
Proof.
  destruct v as [addr visible|none]; simpl; [|by inversion 1].
  intros Hin Hdoc. revert t.
  induction visible as [|[field' fv'] fs IH]; intros t; [by inversion Hin|].
  rewrite parse_fields_cons.
  apply elem_of_cons in Hin as [[= <- <-]|Hin].
  - rewrite decide_True by done. by intros [? ?].
  - destruct (decide (documented (field', fv'))); [|by apply IH].
    destruct fv' as [addr' visible'|none]; [|by intros [? ?]]. simpl.
    destruct (decide (reflect.Kind_of (reflect.field_Type field') = reflect.Struct)).
    + destruct (Doctool.parse_fields _ visible' _); [by apply IH | by intros [? ?]].
    + destruct addr'; [by apply IH | by intros [? ?]].
Qed.

Lemma ParseTree_unreachable_field_witness :
  ¬ is_Ok (Doctool.ParseTree Doctool.Tree
             (reflect.mkValue (Ok 400%N)
                [(reflect.mkStructField "name1" Sample.int_type,
                  reflect.mkValue (Ok 401%N) []);
                 (reflect.mkStructField "server" Sample.server_type,
                  reflect.no_field
                    "reflect: indirection through nil pointer to embedded struct field Embedded")])).
Proof.
  eapply (ParseTree_unreachable_field _ _
            (reflect.mkStructField "server" Sample.server_type)).
  - right. by left.
  - by split.
Defined.

Lemma ParseTree_new_field_nodes (v : reflect.Value) :
  ∀ t t', Doctool.ParseTree t v = Ok t' →
  ∃ new, t' = Doctool.set_Children t (Doctool.Children t ++ new)
         ∧ Forall (DoctoolSpec.all_nodes DoctoolSpec.field_node) new.
Proof.
  induction v as [addr visible IH|msg] using Value_nested_ind; [|done]. simpl.
  induction IH as [|[field fv] fs IHfv _ IHfs]; intros t t' Hrun.
  - injection Hrun as <-. exists []. rewrite app_nil_r. by destruct t.
  - rewrite parse_fields_cons in Hrun.
    destruct (decide (documented (field, fv))); [|by apply IHfs].
    destruct fv as [addr' visible'|msg]; [|done].
    set (fv := reflect.mkValue addr' visible') in *. simpl in Hrun.
    assert (∀ child, DoctoolSpec.all_nodes DoctoolSpec.field_node child →
              Doctool.parse_fields Doctool.ParseTree fs
                (Doctool.set_Children t (Doctool.Children t ++ [child])) = Ok t' →
            ∃ new, t' = Doctool.set_Children t (Doctool.Children t ++ new)
                   ∧ Forall (DoctoolSpec.all_nodes DoctoolSpec.field_node) new)
      as Hstep.
    { intros child Hchild Hrest. destruct (IHfs _ _ Hrest) as (new & -> & Hnew).
      exists (child :: new). split; [|by constructor].
      destruct t; simpl. by rewrite <- app_assoc. }
    destruct (decide (reflect.Kind_of (reflect.field_Type field) = reflect.Struct))
      as [Hk|Hk].
    + destruct (Doctool.parse_fields _ visible' _) as [child|] eqn:Hchild; [|done].
      apply (Hstep child); [|done].
      destruct (IHfv _ _ Hchild) as (new & -> & Hnew). simpl.
      constructor; [|done]. eexists. by repeat split.
    + destruct addr' as [p|]; [|done].
      eapply Hstep; [|exact Hrun].
      constructor; [|by constructor]. eexists. by repeat split.
Qed.

(** [ParseTree] keeps the invariant of built trees: when every descendant
    of the node it is given has a type, no description, no flag and no root
    mark, an address of its own only if its type is not a struct and
    children only if it is, the same holds of every descendant of the node
    it returns.  So no struct field ever carries a storage identity. *)
Theorem ParseTree_field_nodes (t t' : Doctool.Node) (v : reflect.Value) :
  Doctool.ParseTree t v = Ok t' →
  Forall (DoctoolSpec.all_nodes DoctoolSpec.field_node) (Doctool.Children t) →
  Forall (DoctoolSpec.all_nodes DoctoolSpec.field_node) (Doctool.Children t').
Proof.
  intros Hrun Ht. destruct (ParseTree_new_field_nodes v t t' Hrun) as (new & -> & Hnew).
  destruct t; simpl in *. by apply Forall_app.
Qed.

Lemma ParseTree_field_nodes_witness :
  Forall (DoctoolSpec.all_nodes DoctoolSpec.field_node)
    (Doctool.Children (Doctool.set_Children Doctool.Tree [Sample.start])).
Proof.
  apply (ParseTree_field_nodes Doctool.Tree _ Sample.with_start).
  - reflexivity.
  - constructor.
Defined.

(** ** Flag Registry Indexer *)

(** Every entry of the index is a flag of the set, stored under the pointer
    of its own value, and none renders as "deprecated"; a pointer is a key
    of the index exactly when some flag of the set that does not render as
    "deprecated" has it. *)
Theorem parseFlags_entries (fs : flag.FlagSet) (m : gmap uintptr flag.Flag) :
  parseFlags fs = Ok m →
  (∀ p f, m !! p = Some f →
     f ∈ fs ∧ flag.Pointer (flag.Value_ f) = Ok p
     ∧ flag.String_ (flag.Value_ f) ≠ "deprecated")
  ∧ (∀ p, is_Some (m !! p) ↔ ∃ f, f ∈ fs ∧ binds p f).
Proof.
  intros Hm. split.
  - intros p f Hf. rewrite (parseFlags_lookup fs m Hm) in Hf.
    apply last_bound_Some in Hf as (l1 & l2 & -> & [Hd Hp] & _).
    split; [|done]. apply elem_of_app. right. by left.
  - intros p. rewrite (parseFlags_lookup fs m Hm). split.
    + intros [f Hf]. apply last_bound_Some in Hf as (l1 & l2 & -> & Hb & _).
      exists f. split; [|done]. apply elem_of_app. right. by left.
    + intros (f & Hin & Hb). destruct (last_bound fs p) as [g|] eqn:Hlast; [done|].
      by destruct (proj1 (last_bound_None fs p) Hlast f Hin).
Qed.

Lemma parseFlags_entries_witness :
  (∀ p f, ({[1%N := Sample.max_size]} : gmap uintptr flag.Flag) !! p = Some f →
     f ∈ [Sample.max_size; Sample.old_size]
     ∧ flag.Pointer (flag.Value_ f) = Ok p
     ∧ flag.String_ (flag.Value_ f) ≠ "deprecated")
  ∧ (∀ p, is_Some (({[1%N := Sample.max_size]} : gmap uintptr flag.Flag) !! p)
          ↔ ∃ f, f ∈ [Sample.max_size; Sample.old_size] ∧ binds p f).
Proof.
  apply (parseFlags_entries [Sample.max_size; Sample.old_size]).
  reflexivity.
Defined.

Lemma VisitAll_panics (fs : flag.FlagSet) (f : flag.Flag) (msg : string) :
  f ∈ fs → flag.String_ (flag.Value_ f) ≠ "deprecated" →
  flag.Pointer (flag.Value_ f) = Panic msg →
  ∀ acc, ¬ is_Ok (VisitAll fs parseFlags_visit acc).
Proof.
  intros Hin Hd Hp. induction fs as [|g fs IH]; intros acc; [by inversion Hin|].
  change (¬ is_Ok (parseFlags_visit acc g ≫= VisitAll fs parseFlags_visit)).
  apply elem_of_cons in Hin as [<-|Hin].
  - unfold parseFlags_visit. rewrite decide_False by done. rewrite Hp.
    by intros [? ?].
  - destruct (parseFlags_visit acc g); [by apply IH | by intros [? ?]].
Qed.

Lemma parseFlags_returns_inv (fs : flag.FlagSet) :
  is_Ok (parseFlags fs) →
  Forall (λ f, flag.String_ (flag.Value_ f) ≠ "deprecated" →
               is_Ok (flag.Pointer (flag.Value_ f))) fs.
Proof.
  intros Hok. apply Forall_forall. intros f Hin Hd.
  destruct (flag.Pointer (flag.Value_ f)) as [p|msg] eqn:Hp; [by eexists|].
  by destruct (VisitAll_panics fs f msg Hin Hd Hp ∅).
Qed.

(** [parseFlags] returns exactly when the value of every flag that does not
    render as "deprecated" has a pointer: the value of a deprecated flag is
    never asked for one, and one other value without a pointer makes the
    whole index panic. *)
Theorem parseFlags_returns_iff (fs : flag.FlagSet) :
  is_Ok (parseFlags fs)
  ↔ Forall (λ f, flag.String_ (flag.Value_ f) ≠ "deprecated" →
                 is_Ok (flag.Pointer (flag.Value_ f))) fs.
Proof. split; [apply parseFlags_returns_inv | apply parseFlags_returns]. Qed.

(** The index of two flag sets visited one after the other is the index of
    the second, completed by the index of the first: under a pointer both
    hold, the flag of the second set stands. *)
Theorem parseFlags_app (fs1 fs2 : flag.FlagSet) (m1 m2 : gmap uintptr flag.Flag) :
  parseFlags fs1 = Ok m1 → parseFlags fs2 = Ok m2 →
  parseFlags (fs1 ++ fs2) = Ok (m2 ∪ m1).
Proof.
  intros H1 H2.
  destruct (parseFlags_returns (fs1 ++ fs2)) as [m Hm].
  { apply Forall_app. split; apply parseFlags_returns_inv; by eexists. }
  rewrite Hm. f_equal. apply map_eq. intros p.
  rewrite lookup_union, (parseFlags_lookup _ _ Hm), (parseFlags_lookup _ _ H1),
    (parseFlags_lookup _ _ H2).
  unfold last_bound. rewrite filter_app, last_app.
  by destruct (last (filter (binds p) fs2)), (last (filter (binds p) fs1)).
Qed.

Lemma parseFlags_app_witness :
  parseFlags ([Sample.max_size] ++ [Sample.size_alias])
  = Ok ({[1%N := Sample.size_alias]} ∪ {[1%N := Sample.max_size]}).
Proof.
  apply (parseFlags_app [Sample.max_size] [Sample.size_alias]); reflexivity.
Defined.

(** ** Tree Walker *)

Lemma length_concat_map {A B} (f : A → list B) (g : A → nat) (l : list A) :
  Forall (λ a, length (f a) = g a) l →
  length (concat (map f l)) = list_sum (map g l).
Proof.
  induction 1 as [|a l Ha _ IH]; [done|]. simpl. by rewrite length_app, Ha, IH.
Qed.

Lemma Doctool_post_order_length (fn : Doctool.Node → Doctool.Node) (t : Doctool.Node) :
  length (DoctoolSpec.post_order fn t) = DoctoolSpec.size t.
Proof.
  induction t as [t IH] using Doctool_Node_ind. destruct t; simpl in *.
  rewrite length_app, (length_concat_map _ DoctoolSpec.size _ IH). simpl. lia.
Qed.

Lemma Part000_pre_order_length (t : Part000.Node) :
  length (Part000Spec.pre_order t) = Part000Spec.size t.
Proof.
  induction t as [t IH] using Part000_Node_ind. destruct t; simpl in *.
  by rewrite (length_concat_map _ Part000Spec.size _ IH).
Qed.

Section Places.

Context {A : Type} (places : A → list (list nat)).




End Places.









Lemma Doctool_walk_fun_subnode (fn : Doctool.Node → Doctool.Node) :
  (∀ n, Doctool.Children (fn n) = Doctool.Children n) →
  ∀ path t,
    DoctoolSpec.subnode path (DoctoolSpec.walk_fun fn t)
    = (λ L, fn (Doctool.set_Children L
                  (map (DoctoolSpec.walk_fun fn) (Doctool.Children L))))
      <$> DoctoolSpec.subnode path t.
Proof.
  intros Hfn. induction path as [|i path IH]; intros t.
  - by destruct t.
  - simpl. destruct t as [name desc ty tag cs ptr fl root]. simpl.
    rewrite Hfn. simpl. rewrite lookup_map.
    destruct (cs !! i) as [c|]; simpl; [apply IH | done].
Qed.

(** On a tree the tree builder has returned (no two nodes of it share a
    slice of children, so that the loop of the walk stores every walked
    child once), when the per-node function keeps the children of the node
    it is given (as the closures of [main] and of [ApplyRootBlocks] do), the
    walk returns a tree with a node at exactly the places of the tree it was
    given, and the node at a place is the result of the function on the
    node that was there, holding its walked children. *)
Theorem WalkConfigTree_keeps_places (fn : Doctool.Node → Doctool.Node)
  (tree : Doctool.Node) (elem : reflect.Value) :
  Doctool.ParseTree Doctool.Tree elem = Ok tree →
  (∀ n, Doctool.Children (fn n) = Doctool.Children n) →
  ∃ tree',
    Doctool.walk_pure tree fn = Ok tree'
    ∧ ∀ path,
        match DoctoolSpec.subnode path tree with
        | Some L =>
            ∃ L', DoctoolSpec.subnode path tree' = Some L'
                  ∧ L' = fn (Doctool.set_Children L (Doctool.Children L'))
        | None => DoctoolSpec.subnode path tree' = None
        end.
Proof.
  intros _ Hfn. exists (DoctoolSpec.walk_fun fn tree).
  split; [apply Doctool_walk_pure_run|]. intros path.
  rewrite (Doctool_walk_fun_subnode fn Hfn).
  destruct (DoctoolSpec.subnode path tree) as [L|]; simpl; [|done].
  eexists. split; [reflexivity|]. rewrite Hfn. by destruct L.
Qed.

Lemma WalkConfigTree_keeps_places_witness :
  ∃ tree',
    Doctool.walk_pure Sample.server_tree
      (Doctool.attachFlag {[1%N := Sample.max_size]})
    = Ok tree'
    ∧ ∀ path,
        match DoctoolSpec.subnode path Sample.server_tree with
        | Some L =>
            ∃ L', DoctoolSpec.subnode path tree' = Some L'
                  ∧ L' = Doctool.attachFlag {[1%N := Sample.max_size]}
                           (Doctool.set_Children L (Doctool.Children L'))
        | None => DoctoolSpec.subnode path tree' = None
        end.
Proof.
  apply (WalkConfigTree_keeps_places
           (Doctool.attachFlag {[1%N := Sample.max_size]}) Sample.server_tree
           Sample.with_server).
  - reflexivity.
  - reflexivity.
Defined.

(** ** Fold to a document *)

Section AnalyzeNil.

Context {S : Type} (analyze : Part000.Node → M S (option Part000.ConfigBlock.t)).

Lemma analyze_fields_cons (c : Part000.Node) (cs : list Part000.Node)
  (b : option Part000.ConfigBlock.t) (s : S) :
  Part000.analyze_fields analyze (c :: cs) b s =
  match analyze c s with
  | Ok (Some ch, s1) =>
      match Part000.append_field b ch s1 with
      | Ok (b', s2) => Part000.analyze_fields analyze cs b' s2
      | Panic msg => Panic msg
      end
  | Ok (None, s1) => Part000.analyze_fields analyze cs b s1
  | Panic msg => Panic msg
  end.
Proof.
  simpl. unfold mbind, M_bind.
  by destruct (analyze c s) as [[[ch|] s1]|].
Qed.

(** The loop over the children never turns a document into nil, nor nil
    into a document. *)
Lemma analyze_fields_Some (cs : list Part000.Node) :
  ∀ b s r s', Part000.analyze_fields analyze cs (Some b) s = Ok (r, s') → is_Some r.
Proof.
  induction cs as [|c cs IH]; intros b s r s' Hrun.
  - injection Hrun as <- _. by eexists.
  - rewrite analyze_fields_cons in Hrun.
    destruct (analyze c s) as [[[ch|] s1]|]; simpl in Hrun; [| |done];
      by eapply IH.
Qed.

Lemma analyze_fields_None (cs : list Part000.Node) :
  ∀ s r s', Part000.analyze_fields analyze cs None s = Ok (r, s') → r = None.
Proof.
  induction cs as [|c cs IH]; intros s r s' Hrun.
  - by injection Hrun as <- _.
  - rewrite analyze_fields_cons in Hrun.
    destruct (analyze c s) as [[[ch|] s1]|]; simpl in Hrun; [done| |done].
    by eapply IH.
Qed.

(** With nil to append to, the loop panics as soon as a child yields a
    document. *)
Lemma analyze_fields_None_panics (c : Part000.Node) (cs : list Part000.Node) :
  c ∈ cs →
  (∀ s s', analyze c s ≠ Ok (None, s')) →
  ∀ s, ¬ is_Ok (Part000.analyze_fields analyze cs None s).
Proof.
  intros Hin Hc. induction cs as [|c' cs IH]; intros s; [by inversion Hin|].
  rewrite analyze_fields_cons.
  apply elem_of_cons in Hin as [<-|Hin].
  - destruct (analyze c s) as [[[ch|] s1]|] eqn:Hrun.
    + by intros [? ?].
    + by destruct (Hc s s1).
    + by intros [? ?].
  - destruct (analyze c' s) as [[[ch|] s1]|].
    + by intros [? ?].
    + by apply IH.
    + by intros [? ?].
Qed.

End AnalyzeNil.

Lemma Part000_analyze_nil (fn : Part000.Node → option Part000.ConfigBlock.t)
  {S : Type} (t : Part000.Node) (s s' : S) (r : option Part000.ConfigBlock.t) :
  Part000.AnalyzeConfigTree t (pure fn) s = Ok (r, s') → (r = None ↔ fn t = None).
Proof.
  rewrite Part000_analyze_unfold. unfold pure at 1.
  destruct (fn t) as [b|]; intros Hrun.
  - apply analyze_fields_Some in Hrun as [? ->]. by split.
  - by apply analyze_fields_None in Hrun as ->.
Qed.

(** When the fold returns, its result is nil exactly when the transform
    returned nil for the root of the tree: documents of children are only
    ever appended to a document. *)
Theorem AnalyzeConfigTree_nil_iff (fn : Part000.Node → option Part000.ConfigBlock.t)
  (t : Part000.Node) (r : option Part000.ConfigBlock.t) :
  Part000.AnalyzeConfigTree t (pure fn) () = Ok (r, ()) →
  (r = None ↔ fn t = None).
Proof. apply Part000_analyze_nil. Qed.

Lemma AnalyzeConfigTree_nil_iff_witness :
  Some (Part000Spec.fold_doc Sample.name_only Sample.tree0) = None
  ↔ Some (Sample.name_only Sample.tree0) = None.
Proof.
  apply (AnalyzeConfigTree_nil_iff (λ n, Some (Sample.name_only n)) Sample.tree0).
  reflexivity.
Defined.

(** The fold panics when the transform returns nil for a node and a
    document for one of its children: the document of the child is
    appended through the nil pointer. *)
Theorem AnalyzeConfigTree_nil_parent (fn : Part000.Node → option Part000.ConfigBlock.t)
  (t c : Part000.Node) :
  fn t = None → c ∈ Part000.Children t → fn c ≠ None →
  ¬ is_Ok (Part000.AnalyzeConfigTree t (pure fn) ()).
Proof.
  intros Ht Hin Hc. rewrite Part000_analyze_unfold. unfold pure at 1. rewrite Ht.
  apply (analyze_fields_None_panics _ c); [done|].
  intros s s' Hrun. apply Hc. by apply (Part000_analyze_nil fn c s s' None).
Qed.

Lemma AnalyzeConfigTree_nil_parent_witness :
  ¬ is_Ok (Part000.AnalyzeConfigTree Sample.tree0
             (pure (λ n, if decide (Part000.Name n = "root") then None
                         else Some (Sample.name_only n))) ()).
Proof.
  apply (AnalyzeConfigTree_nil_parent _ Sample.tree0 Sample.leaf0).
  - reflexivity.
  - by left.
  - discriminate.
Defined.

Lemma Part000_analyze_fields_returns {S : Type}
  (analyze : Part000.Node → M S (option Part000.ConfigBlock.t))
  (g : Part000.Node → Part000.ConfigBlock.t) (cs : list Part000.Node) :
  Forall (λ c, ∀ s, analyze c s = Ok (Some (g c), s)) cs →
  ∀ b s,
    Part000.analyze_fields analyze cs (Some b) s
    = Ok (Some (Part000.ConfigBlock.set_Fields b
                  (Part000.ConfigBlock.Fields b ++ map g cs)), s).
Proof.
  induction 1 as [|c cs Hc _ IH]; intros b s.
  - simpl. rewrite app_nil_r. by destruct b.
  - rewrite analyze_fields_cons, Hc. simpl. rewrite IH.
    destruct b; simpl. by rewrite <- app_assoc.
Qed.

(** With a transform without effects that never returns nil, the fold
    returns [fold_doc] and leaves the state alone. *)
Lemma Part000_analyze_pure {S : Type} (fn : Part000.TransformFunc S)
  (g : Part000.Node → Part000.ConfigBlock.t) :
  (∀ n s, fn n s = Ok (Some (g n), s)) →
  ∀ t s, Part000.AnalyzeConfigTree t fn s
         = Ok (Some (Part000Spec.fold_doc g t), s).
Proof.
  intros Hfn t. induction t as [t IH] using Part000_Node_ind. intros s.
  rewrite Part000_analyze_unfold, Hfn.
  rewrite (Part000_analyze_fields_returns _ (Part000Spec.fold_doc g) _ IH).
  by destruct t.
Qed.

(** The closure of [Apply] returns for every node: a document with the
    name of the node, its type label, and no fields yet. *)
Lemma Apply_node_returns (prefix : string) (bs : list blocks.Block)
  (m : gmap uintptr flag.Flag) (node : Part000.Node) :
  ∃ b, Part000.Apply_node prefix bs m node = Ok b
       ∧ Part000.ConfigBlock.Name b = Part000.Name node
       ∧ Part000.getType (Part000.Type_ node) = Ok (Part000.ConfigBlock.Type_ b)
       ∧ Part000.ConfigBlock.Fields b = [].
Proof.
  unfold Part000.Apply_node.
  destruct (Part000.Type_ node); simpl;
    destruct (Part000.blockForNode node bs), (m !! Part000.Pointer node);
    by eexists.
Qed.

Lemma fold_doc_mirrors (g : Part000.Node → Part000.ConfigBlock.t) :
  (∀ n, Part000.ConfigBlock.Name (g n) = Part000.Name n
        ∧ Part000.getType (Part000.Type_ n) = Ok (Part000.ConfigBlock.Type_ (g n))
        ∧ Part000.ConfigBlock.Fields (g n) = []) →
  ∀ t, Part000Spec.mirrors t (Part000Spec.fold_doc g t).
Proof.
  intros Hg t. induction t as [t IH] using Part000_Node_ind.
  destruct (Hg t) as (Hname & Hty & Hfields).
  destruct t as [name desc ty tag cs ptr fl]. simpl in *.
  constructor; simpl; [by destruct (g _) | by destruct (g _) |].
  rewrite Hfields. simpl. destruct (g _); simpl.
  induction IH as [|c cs Hc _ IHcs]; constructor; assumption.
Qed.

(** In the pipeline of part_000, [Apply(tree, blocks, parseFlags(fs))],
    with an index built by [parseFlags], which holds no nil flag, and with
    [prefix] for what the calls of [getFlagPrefix] return: [Apply] returns
    a document, not nil, of the shape of the tree, with the name and the
    type label of each node and one field per child, in the order of the
    children.  The types of the nodes are finite descriptors. *)
Theorem Apply_mirrors (prefix : string) (tree : Part000.Node)
  (bs : list blocks.Block) (fs : flag.FlagSet) (m : gmap uintptr flag.Flag) :
  parseFlags fs = Ok m →
  ∃ doc, Part000.Apply prefix tree bs m () = Ok (Some doc, ())
         ∧ Part000Spec.mirrors tree doc.
Proof.
  intros _.
  set (g := λ n, match Part000.Apply_node prefix bs m n with
                 | Ok b => b
                 | Panic _ => Part000.ConfigBlock.mk "" "" "" None "" [] [] false
                 end).
  assert (∀ n, Part000.Apply_node prefix bs m n = Ok (g n)) as Hg.
  { intros n. unfold g. by destruct (Apply_node_returns prefix bs m n) as (b & -> & _). }
  exists (Part000Spec.fold_doc g tree). split.
  - unfold Part000.Apply. apply Part000_analyze_pure. intros n s. by rewrite Hg.
  - apply fold_doc_mirrors. intros n.
    destruct (Apply_node_returns prefix bs m n) as (b & Hb & ?).
    rewrite Hg in Hb. by injection Hb as ->.
Qed.

Lemma Apply_mirrors_witness :
  ∃ doc, Part000.Apply "" Sample.tree0 [Sample.ttl_block]
           {[1%N := Sample.size_alias]} ()
         = Ok (Some doc, ())
         ∧ Part000Spec.mirrors Sample.tree0 doc.
Proof.
  apply (Apply_mirrors "" Sample.tree0 [Sample.ttl_block]
           [Sample.max_size; Sample.size_alias]).
  reflexivity.
Defined.

(** ** Block Matcher *)

Lemma blockForNode_None (n : Part000.Node) (bs : list blocks.Block) :
  Part000.blockForNode n bs = None
  ↔ ∀ bb, bb ∈ bs → Part000.Type_ n ≠ blocks.Type_ bb.
Proof.
  induction bs as [|b bs IH]; simpl.
  - split; [|done]. intros _ bb Hin. by inversion Hin.
  - destruct (decide (Part000.Type_ n = blocks.Type_ b)) as [Hb|Hb].
    + split; [done|]. intros Hall. destruct (Hall b); [by left | done].
    + rewrite IH. split.
      * intros Hall bb [->|Hin]%elem_of_cons; [done | by apply Hall].
      * intros Hall bb Hin. apply Hall. by right.
Qed.

(** In the pipeline of part_000, with an index built by [parseFlags] and
    with [prefix] for what [getFlagPrefix] returns: the document the closure
    of [Apply] builds for a node is marked as a root block exactly when the
    type of the node is the type of some entry of the registry.  Without a
    matching entry and without a flag under the identity of the node, the
    document keeps the description of the node and has no flag name. *)
Theorem Apply_node_marks (prefix : string) (bs : list blocks.Block)
  (fs : flag.FlagSet) (m : gmap uintptr flag.Flag) (node : Part000.Node) :
  parseFlags fs = Ok m →
  ∃ b, Part000.Apply_node prefix bs m node = Ok b
       ∧ (Part000.ConfigBlock.IsRoot b = true
          ↔ ∃ bb, bb ∈ bs ∧ Part000.Type_ node = blocks.Type_ bb)
       ∧ (Part000.ConfigBlock.IsRoot b = false →
          m !! Part000.Pointer node = None →
          Part000.ConfigBlock.Desc b = Part000.Desc node
          ∧ Part000.ConfigBlock.FlagName b = "").
Proof.
  intros _. unfold Part000.Apply_node.
  destruct (Part000.blockForNode node bs) as [bb|] eqn:Hbb.
  - assert (∃ bb, bb ∈ bs ∧ Part000.Type_ node = blocks.Type_ bb) as Hex.
    { apply blockForNode_first in Hbb as (l1 & l2 & -> & Hty & _).
      exists bb. split; [|done]. apply elem_of_app. right. by left. }
    destruct (Part000.Type_ node), (m !! Part000.Pointer node); simpl;
      (eexists; split; [reflexivity|]; simpl; by repeat split).
  - assert (¬ ∃ bb, bb ∈ bs ∧ Part000.Type_ node = blocks.Type_ bb) as Hno.
    { intros (bb & Hin & Hty). by apply (proj1 (blockForNode_None _ _) Hbb bb Hin). }
    destruct (Part000.Type_ node), (m !! Part000.Pointer node); simpl;
      (eexists; split; [reflexivity|]; simpl; repeat split; try done).
Qed.

Lemma Apply_node_marks_witness :
  ∃ b, Part000.Apply_node "" [Sample.ttl_block] {[1%N := Sample.ttl_flag]}
         Sample.ttl = Ok b
       ∧ (Part000.ConfigBlock.IsRoot b = true
          ↔ ∃ bb, bb ∈ [Sample.ttl_block]
                  ∧ Part000.Type_ Sample.ttl = blocks.Type_ bb)
       ∧ (Part000.ConfigBlock.IsRoot b = false →
          ({[1%N := Sample.ttl_flag]} : gmap uintptr flag.Flag)
            !! Part000.Pointer Sample.ttl = None →
          Part000.ConfigBlock.Desc b = Part000.Desc Sample.ttl
          ∧ Part000.ConfigBlock.FlagName b = "").
Proof.
  apply (Apply_node_marks "" [Sample.ttl_block] [Sample.ttl_flag]).
  reflexivity.
Defined.

(** In a registry that lists every type once, as [Blocks()] does, the entry
    [blockForNode] returns is the only entry whose type is the type of the
    node: the order of the registry does not matter. *)
Theorem blockForNode_unique (n : Part000.Node) (bs : list blocks.Block)
  (bb : blocks.Block) :
  NoDup (blocks.Type_ <$> bs) →
  (Part000.blockForNode n bs = Some bb
   ↔ bb ∈ bs ∧ Part000.Type_ n = blocks.Type_ bb).
Proof.
  intros Hnodup. split.
  - intros (l1 & l2 & -> & Hty & _)%blockForNode_first.
    split; [|done]. apply elem_of_app. right. by left.
  - intros [Hin Hty]. induction bs as [|b bs IH]; [by inversion Hin|].
    simpl. apply NoDup_cons in Hnodup as [Hb Hnodup].
    destruct (decide (Part000.Type_ n = blocks.Type_ b)) as [Hnb|Hnb].
    + apply elem_of_cons in Hin as [->|Hin]; [done|].
      destruct Hb. rewrite <- Hnb, Hty. by apply list_elem_of_fmap_2.
    + apply elem_of_cons in Hin as [->|Hin]; [done|]. by apply IH.
Qed.

Lemma blockForNode_unique_witness :
  Part000.blockForNode Sample.common_node0 blocks.Blocks = Some Sample.ttl_block
  ↔ Sample.ttl_block ∈ blocks.Blocks
    ∧ Part000.Type_ Sample.common_node0 = blocks.Type_ Sample.ttl_block.
Proof.
  apply (blockForNode_unique Sample.common_node0 blocks.Blocks Sample.ttl_block).
  apply (bool_decide_unpack _). by vm_compute.
Defined.

(** The loop leaves alone, and prints nothing for, a node without a type
    when every entry of the registry has a type. *)
Lemma rootBlocks_loop_untyped (bs : list blocks.Block) (node : Doctool.Node)
  (out : string) :
  Doctool.Type_ node = None → Forall (λ b, blocks.Type_ b ≠ None) bs →
  Doctool.rootBlocks_loop bs node out = Ok (node, out).
Proof.
  intros Hty Hbs. induction Hbs as [|b bs Hb _ IH]; simpl; [done|].
  rewrite Hty. rewrite decide_False; [done|].
  by destruct (blocks.Type_ b).
Qed.

Lemma ApplyRootBlocks_unchanged (bs : list blocks.Block) (tree : Doctool.Node) :
  Forall (λ b, blocks.Type_ b ≠ None) bs →
  DoctoolSpec.all_nodes (λ n, Doctool.Type_ n ≠ Some reflect.rtype_pointer) tree →
  ∀ out, Doctool.ApplyRootBlocks tree bs out = Ok (tree, out).
Proof.
  intros Hbs. unfold Doctool.ApplyRootBlocks.
  induction tree as [t IH] using Doctool_Node_ind. intros Ht out.
  inversion Ht as [t' Hty Hcs]; subst.
  rewrite Doctool_walk_unfold.
  rewrite (mapM_returns _ id (λ _ s, s)).
  - rewrite foldl_unchanged, map_id.
    assert (Doctool.set_Children t (Doctool.Children t) = t) as -> by by destruct t.
    destruct (Doctool.Type_ t) as [ty|] eqn:Hty'.
    + apply (rootBlocks_loop_no_match bs t out ty); congruence.
    + by apply rootBlocks_loop_untyped.
  - eapply Forall_impl; [apply Forall_and; split; [exact IH | exact Hcs]|].
    intros c [IHc Hc] s. by apply IHc.
Qed.

(** [ApplyRootBlocks] of main.go is without effect on every tree that holds
    no node of type [*reflect.rtype], for every registry whose entries all
    have a type, as those of [Blocks()] have: it returns the tree it was
    given, with no node marked, and prints nothing. *)
Theorem ApplyRootBlocks_marks_nothing (bs : list blocks.Block)
  (tree : Doctool.Node) (out : string) :
  Forall (λ b, blocks.Type_ b ≠ None) bs →
  DoctoolSpec.all_nodes (λ n, Doctool.Type_ n ≠ Some reflect.rtype_pointer) tree →
  Doctool.ApplyRootBlocks tree bs out = Ok (tree, out).
Proof. intros Hbs Ht. by apply ApplyRootBlocks_unchanged. Qed.

Lemma ApplyRootBlocks_marks_nothing_witness :
  Doctool.ApplyRootBlocks (Doctool.set_Children Doctool.Tree [Sample.common_node])
    blocks.Blocks ""
  = Ok (Doctool.set_Children Doctool.Tree [Sample.common_node], "").
Proof.
  apply (ApplyRootBlocks_marks_nothing blocks.Blocks).
  - apply (bool_decide_unpack _). by vm_compute.
  - repeat constructor; discriminate.
Defined.

Lemma rootBlocks_loop_nil_panics (bs : list blocks.Block) (b : blocks.Block)
  (node : Doctool.Node) (out : string) :
  Doctool.Type_ node = None → b ∈ bs → blocks.Type_ b = None →
  Doctool.rootBlocks_loop bs node out = Panic nil_dereference.
Proof.
  intros Hty Hin Hb. revert node out Hty.
  induction bs as [|b' bs IH]; intros node out Hty; [by inversion Hin|].
  simpl. rewrite Hty. destruct (blocks.Type_ b') as [ty|] eqn:Hb'; simpl.
  - apply elem_of_cons in Hin as [->|Hin]; [congruence | by apply IH].
  - done.
Qed.

(** [ApplyRootBlocks] of main.go panics on every tree whose root has no
    type, as the root [Tree()] builds has none, when some entry of the
    registry has no type: the root matches that entry and the classifier is
    called on nil. *)
Theorem ApplyRootBlocks_untyped_entry (bs : list blocks.Block) (b : blocks.Block)
  (tree : Doctool.Node) (out : string) :
  Doctool.Type_ tree = None → b ∈ bs → blocks.Type_ b = None →
  ¬ is_Ok (Doctool.ApplyRootBlocks tree bs out).
Proof.
  intros Hty Hin Hb. unfold Doctool.ApplyRootBlocks.
  rewrite Doctool_walk_unfold.
  destruct (mapM _ (Doctool.Children tree) out) as [[cs out']|]; [|by intros [? ?]].
  rewrite (rootBlocks_loop_nil_panics bs b); [by intros [? ?] | by destruct tree | done..].
Qed.

Lemma ApplyRootBlocks_untyped_entry_witness :
  ¬ is_Ok (Doctool.ApplyRootBlocks Sample.tree
             (blocks.mkBlock "no_type" "An entry without a type." None
              :: blocks.Blocks) "").
Proof.
  apply (ApplyRootBlocks_untyped_entry _
           (blocks.mkBlock "no_type" "An entry without a type." None)).
  - reflexivity.
  - by left.
  - reflexivity.
Defined.

(** ** The pipeline of main.go *)

Lemma Doctool_attach_all_nodes (m : gmap uintptr flag.Flag)
  (P : reflect.Type_ → Prop) (t : Doctool.Node) :
  DoctoolSpec.all_nodes (λ n, P (Doctool.Type_ n)) t →
  DoctoolSpec.all_nodes (λ n, P (Doctool.Type_ n))
    (DoctoolSpec.walk_fun (Doctool.attachFlag m) t).
Proof.
  induction t as [t IH] using Doctool_Node_ind. intros Ht.
  inversion Ht as [t' Hty Hcs]; subst.
  destruct t as [name desc ty tag cs ptr fl root]; simpl in *.
  constructor; [done|]. simpl. apply List.Forall_map.
  eapply Forall_impl; [apply Forall_and; split; [exact IH | exact Hcs]|].
  intros c [IHc Hc]. by apply IHc.
Qed.

(** When the tree builder and the flag indexer return, and no field of the
    configuration is of type [*reflect.rtype], [main] returns and has
    written exactly the text tree of the annotated tree and a line feed:
    the renderer does not panic, and the block matcher, run on the shipped
    registry, adds no line to the output. *)
Theorem main_output (elem : reflect.Value) (fs : flag.FlagSet)
  (tree : Doctool.Node) (m : gmap uintptr flag.Flag) (out : string) :
  Doctool.ParseTree Doctool.Tree elem = Ok tree →
  parseFlags fs = Ok m →
  DoctoolSpec.all_nodes (λ n, Doctool.Type_ n ≠ Some reflect.rtype_pointer) tree →
  ∃ tree' text,
    Doctool.walk_pure tree (Doctool.attachFlag m) = Ok tree'
    ∧ Doctool.PrintConfigTree tree' 0 = Ok text
    ∧ Doctool.main elem fs out = Ok ((), out +:+ text +:+ nl).
Proof.
  intros Htree Hm Hty.
  exists (DoctoolSpec.walk_fun (Doctool.attachFlag m) tree),
    (DoctoolSpec.render (DoctoolSpec.walk_fun (Doctool.attachFlag m) tree) 0).
  split; [apply Doctool_walk_pure_run|]. split; [apply Doctool_print_render|].
  unfold Doctool.main. rewrite Htree, Hm. simpl.
  rewrite Doctool_walk_pure_run. simpl. rewrite Doctool_print_render. simpl.
  rewrite ApplyRootBlocks_unchanged; [done| |].
  - apply (bool_decide_unpack _). by vm_compute.
  - by apply (Doctool_attach_all_nodes m (λ ty, ty ≠ Some reflect.rtype_pointer)).
Qed.

Lemma main_output_witness :
  ∃ tree' text,
    Doctool.walk_pure (Doctool.set_Children Doctool.Tree [Sample.start])
      (Doctool.attachFlag {[1%N := Sample.max_size]}) = Ok tree'
    ∧ Doctool.PrintConfigTree tree' 0 = Ok text
    ∧ Doctool.main Sample.with_start [Sample.max_size; Sample.old_size] ""
      = Ok ((), "" +:+ text +:+ nl).
Proof.
  apply (main_output Sample.with_start [Sample.max_size; Sample.old_size]).
  - reflexivity.
  - reflexivity.
  - repeat constructor; discriminate.
Defined.

(** ** Documents and flags *)

(** In the pipeline of part_000, [Apply(tree, blocks, parseFlags(fs))], the
    document of a node names the last flag of the set, in the order of
    enumeration, that is bound to the storage of the node and does not
    render as "deprecated", and takes its usage text as description; it has
    no flag name when there is no such flag. *)
Theorem Apply_node_flag (prefix : string) (bs : list blocks.Block)
  (fs : flag.FlagSet) (m : gmap uintptr flag.Flag) (node : Part000.Node) :
  parseFlags fs = Ok m →
  ∃ b, Part000.Apply_node prefix bs m node = Ok b
       ∧ match last_bound fs (Part000.Pointer node) with
         | Some f => Part000.ConfigBlock.FlagName b = flag.Name f
                     ∧ Part000.ConfigBlock.Desc b = flag.Usage f
         | None => Part000.ConfigBlock.FlagName b = ""
         end.
Proof.
  intros Hm. unfold Part000.Apply_node.
  rewrite (parseFlags_lookup fs m Hm).
  destruct (Part000.Type_ node), (Part000.blockForNode node bs),
    (last_bound fs (Part000.Pointer node)); simpl; by eexists.
Qed.

Lemma Apply_node_flag_witness :
  ∃ b, Part000.Apply_node "" [] {[1%N := Sample.size_alias]} Sample.leaf0 = Ok b
       ∧ match last_bound [Sample.max_size; Sample.size_alias]
                 (Part000.Pointer Sample.leaf0) with
         | Some f => Part000.ConfigBlock.FlagName b = flag.Name f
                     ∧ Part000.ConfigBlock.Desc b = flag.Usage f
         | None => Part000.ConfigBlock.FlagName b = ""
         end.
Proof.
  apply (Apply_node_flag "" [] [Sample.max_size; Sample.size_alias]).
  reflexivity.
Defined.

(** ** Type labels of part_000 *)

Lemma occurs_app (c : ascii) (s t : string) :
  occurs c (s +:+ String c t) = true.
Proof.
  induction s as [|a s IH]; simpl.
  - by rewrite Ascii.eqb_refl.
  - change (Ascii.eqb a c || occurs c (s +:+ String c t) = true).
    rewrite IH. apply orb_true_r.
Qed.

Lemma qualified_inj (pkg1 pkg2 name1 name2 : string) :
  occurs "."%char name1 = false → occurs "."%char name2 = false →
  pkg1 +:+ "." +:+ name1 = pkg2 +:+ "." +:+ name2 →
  pkg1 = pkg2 ∧ name1 = name2.
Proof.
  intros H1 H2. revert pkg2.
  induction pkg1 as [|a pkg1 IH]; intros [|b pkg2] Heq.
  - change (String "."%char name1 = String "."%char name2) in Heq.
    by injection Heq as ->.
  - change (String "."%char name1 = String b (pkg2 +:+ String "."%char name2)) in Heq.
    injection Heq as <- ->. by rewrite occurs_app in H1.
  - change (String a (pkg1 +:+ String "."%char name1) = String "."%char name2) in Heq.
    injection Heq as -> <-. by rewrite occurs_app in H2.
  - change (String a (pkg1 +:+ "." +:+ name1) = String b (pkg2 +:+ "." +:+ name2)) in Heq.
    injection Heq as -> Heq. by destruct (IH _ Heq) as [-> ->].
Qed.

(** The label part_000 gives a struct type tells struct types apart: two
    struct descriptors with the same label have the same package path and
    the same name, names holding no dot.  (The label of main.go and of
    part_001, the bare name, does not.) *)
Theorem Part000_struct_label_inj (pkg1 pkg2 name1 name2 : string) :
  occurs "."%char name1 = false → occurs "."%char name2 = false →
  Part000.getType (Some (reflect.Plain reflect.Struct pkg1 name1))
  = Part000.getType (Some (reflect.Plain reflect.Struct pkg2 name2)) →
  pkg1 = pkg2 ∧ name1 = name2.
Proof.
  intros H1 H2 Heq. simpl in Heq. injection Heq as Heq.
  by apply qualified_inj.
Qed.

Lemma Part000_struct_label_inj_witness :
  "github.com/grafana/loki/pkg/loki/common" = "github.com/grafana/loki/pkg/loki/common"
  ∧ "Config" = "Config".
Proof.
  apply (Part000_struct_label_inj
           "github.com/grafana/loki/pkg/loki/common"
           "github.com/grafana/loki/pkg/loki/common" "Config" "Config");
    reflexivity.
Defined.
